(** * geograpy3: the place-name resolution engine of [geograpy/locator.py]

    A shallow embedding of the [Locator] class (token scan, candidate
    lookup, tie-break policy, store population) together with the data
    classes [City], [Region] and [Country], and the properties of the
    specification that concern them.

    Conventions.
    - Python [str] values are Rocq [string]s holding the UTF-8 bytes of the
      text.  Every character the program inspects ([0-9A-Z], the space it
      appends to a pending prefix, the newline special-cased by [$]) is
      ASCII, and UTF-8 is self-synchronising, so equality, concatenation
      and substring search on bytes agree with Python's on code points.
    - Python [int] is [Z].
    - A query-result row (a Python [dict]) is a [gmap string value].
    - Exceptions are the [Raise] case of [result]; the SQLite store is
      threaded explicitly through the state-and-error monad [M]. *)

From Stdlib Require Import ZArith String Ascii List Bool Lia.
From stdpp Require Import base option list gmap strings pretty.

Open Scope Z_scope.
Open Scope string_scope.

(** ** Python values and exceptions *)

(** The values found in query rows and object attributes:
    [None] (SQL NULL), a [str] and an [int]. *)
Inductive value : Type :=
| VNone
| VStr (s : string)
| VInt (z : Z).

Global Instance value_eq_dec : EqDecision value.
Proof. solve_decision. Defined.

(** A row as returned by [SQLDB.query] or [csv.DictReader]: a [dict]. *)
Abbreviation record := (gmap string value).

Inductive exn : Type :=
| KeyError (key : string)
| IndexError
| OperationalError (msg : string).

Inductive result (A : Type) : Type :=
| Ok (a : A)
| Raise (e : exn).
Arguments Ok {A} a.
Arguments Raise {A} e.

(** [record[key]]: raises [KeyError] when the key is absent. *)
Definition getitem (r : record) (key : string) : result value :=
  match r !! key with
  | Some v => Ok v
  | None => Raise (KeyError key)
  end.

(** ** Regular expressions: the fragment used by [isISO]

    [re.search] semantics for patterns built from [^], [$] and a bounded
    greedy repetition of a character class.  Without [re.MULTILINE], [^]
    matches only at the start of the string, and [$] matches at the end of
    the string and just before a newline that is the last character. *)
Inductive re_item : Type :=
| ReCaret
| ReDollar
| ReClass (ranges : list (ascii * ascii)) (lo hi : nat).

Definition in_range (c : ascii) (rg : ascii * ascii) : bool :=
  (N.leb (N_of_ascii (fst rg)) (N_of_ascii c)) && (N.leb (N_of_ascii c) (N_of_ascii (snd rg))).

Definition in_class (ranges : list (ascii * ascii)) (c : ascii) : bool :=
  existsb (in_range c) ranges.

Definition newline : ascii := "010"%char.

(** [$] at the current position, [s] being the rest of the subject. *)
Definition at_dollar (s : string) : bool :=
  match s with
  | EmptyString => true
  | String c EmptyString => if Ascii.eqb c newline then true else false
  | _ => false
  end.

(** Strip [n] leading characters when all of them are in the class. *)
Fixpoint take_class (ranges : list (ascii * ascii)) (n : nat) (s : string) : option string :=
  match n with
  | O => Some s
  | S n' =>
      match s with
      | String c s' => if in_class ranges c then take_class ranges n' s' else None
      | EmptyString => None
      end
  end.

(** Match the items at the current position; [bos] tells whether the
    position is the beginning of the subject.  A repetition first tries
    its largest count [lo + extra] and backtracks down to [lo]. *)
Fixpoint re_match_here (items : list re_item) (bos : bool) (s : string) : bool :=
  match items with
  | [] => true
  | ReCaret :: rest => bos && re_match_here rest bos s
  | ReDollar :: rest => at_dollar s && re_match_here rest bos s
  | ReClass ranges lo hi :: rest =>
      (fix try (extra : nat) : bool :=
         let k := (lo + extra)%nat in
         let here :=
           match take_class ranges k s with
           | Some s' => re_match_here rest (bos && Nat.eqb k 0) s'
           | None => false
           end in
         match extra with
         | O => here
         | S extra' => here || try extra'
         end) (hi - lo)%nat
  end.

(** [re.search(pattern, s) is not None]: try every start position. *)
Fixpoint re_search_from (items : list re_item) (bos : bool) (s : string) : bool :=
  re_match_here items bos s ||
  match s with
  | EmptyString => false
  | String _ s' => re_search_from items false s'
  end.

Definition re_search (items : list re_item) (s : string) : bool :=
  re_search_from items true s.

(** The pattern [r"^[0-9A-Z]{1,3}$"]. *)
Definition iso_pattern : list re_item :=
  [ReCaret; ReClass [("0"%char, "9"%char); ("A"%char, "Z"%char)] 1 3; ReDollar].

(** [Locator.isISO] *)
Definition isISO (s : string) : bool :=
  let m := re_search iso_pattern s in
  let result := m in
  result.

(** ** Strings *)

(** Python's [needle in hay] on strings: substring search. *)
Fixpoint str_contains (needle hay : string) : bool :=
  String.prefix needle hay ||
  match hay with
  | EmptyString => false
  | String _ hay' => str_contains needle hay'
  end.

(** ** Sequencing of fallible code *)

Definition bindR {A B : Type} (r : result A) (k : A -> result B) : result B :=
  match r with
  | Ok a => k a
  | Raise e => Raise e
  end.

Notation "'let?' x ':=' c1 'in' c2" := (bindR c1 (fun x => c2))
  (at level 10, x name, c1 at level 100, c2 at level 200).

(** A [for] loop that appends [f x] for each element, stopping at the
    first exception. *)
Fixpoint mapR {A B : Type} (f : A -> result B) (l : list A) : result (list B) :=
  match l with
  | [] => Ok []
  | x :: l' =>
      let? y := f x in
      let? ys := mapR f l' in
      Ok (y :: ys)
  end.

(** ** The data classes *)

Module Region.
Record t : Type := mk { name : value; iso : value }.

(** [Region.fromGeoLite2] *)
Definition fromGeoLite2 (record : record) : result t :=
  let? name := getitem record "regionName" in
  let? iso := getitem record "regionIsoCode" in
  Ok {| name := name; iso := iso |}.
End Region.

(** An entry of [pycountry.countries]. *)
Record PyCountry : Type := mkPyCountry { pc_name : string; pc_alpha_2 : string }.

Module Country.
Record t : Type := mk { name : value; iso : value }.

(** [Country.fromGeoLite2] *)
Definition fromGeoLite2 (record : record) : result t :=
  let? name := getitem record "countryName" in
  let? iso := getitem record "countryIsoCode" in
  Ok {| name := name; iso := iso |}.

(** [Country.fromPyCountry] *)
Definition fromPyCountry (pcountry : PyCountry) : t :=
  {| name := VStr (pc_name pcountry); iso := VStr (pc_alpha_2 pcountry) |}.
End Country.

Module City.
Record t : Type := mk {
  name : value;
  population : value;
  gdp : value;
  region : Region.t;
  country : Country.t
}.

(** [self.__dict__[name] = value] for the attributes that hold plain
    values; the program never assigns any other attribute this way. *)
Definition setattr (self : t) (attr : string) (v : value) : t :=
  if String.eqb attr "name" then
    {| name := v; population := population self; gdp := gdp self;
       region := region self; country := country self |}
  else if String.eqb attr "population" then
    {| name := name self; population := v; gdp := gdp self;
       region := region self; country := country self |}
  else if String.eqb attr "gdp" then
    {| name := name self; population := population self; gdp := v;
       region := region self; country := country self |}
  else self.

(** [City.setValue]: the record's entry, or [None] when the record has
    no such key. *)
Definition setValue (self : t) (attr : string) (record : record) : t :=
  let v := match record !! attr with
           | Some v => v
           | None => VNone
           end in
  setattr self attr v.

(** [City.fromGeoLite2].  The object starts without attributes; the
    three reads that can raise are done in the source's order, and
    [setValue] cannot raise, so building the object after the reads
    gives the same outcome. *)
Definition fromGeoLite2 (record : record) : result t :=
  let? name := getitem record "name" in
  let? region := Region.fromGeoLite2 record in
  let? country := Country.fromGeoLite2 record in
  let city := {| name := name; population := VNone; gdp := VNone;
                 region := region; country := country |} in
  let city := setValue city "population" record in
  let city := setValue city "gdp" record in
  Ok city.
End City.

(** ** The environment of a [Locator]

    What the program reads from outside [locator.py]: the [pycountry]
    database, the two CSV files shipped in [data/], the Wikidata lists,
    and two helpers of the package that the locator calls. *)
Record Env : Type := mkEnv {
  (** [pycountry.countries.get(alpha_2=...)], [None] when absent *)
  pycountry_alpha_2 : string -> option PyCountry;
  (** [pycountry.countries.get(name=...)], [None] when absent *)
  pycountry_name : string -> option PyCountry;
  (** [utils.remove_non_ascii] *)
  remove_non_ascii : string -> string;
  (** the rows [csv.reader] yields for [data/ISO3166ErrorDictionary.csv] *)
  ISO3166ErrorDictionary : list (list string);
  (** the rows [csv.DictReader] yields for
      [data/GeoLite2-City-Locations-en.csv] *)
  GeoLite2_City_Locations : list record;
  (** [Wikidata().countryList] after [getCountries()] *)
  wikidata_countryList : list record;
  (** [Wikidata().regionList] after [getRegions()] *)
  wikidata_regionList : list record;
  (** the tables of the downloaded [City_wikidata.db] *)
  City_wikidata_db : gmap string (list record);
  (** the rows [PrefixTree.store] writes to the table [prefixes] after
      [add] has been called with the given names, in order *)
  PrefixTree_store : list value -> list record
}.

(** The attributes of a [Locator]; [useWikiData] is the class attribute
    [Locator.useWikiData]. *)
Record Locator : Type := mkLocator {
  debug : bool;
  correctMisspelling : bool;
  useWikiData : bool
}.

(** ** The SQLite store

    A model of the [lodstorage.sql.SQLDB] handle [self.sqlDB]: the tables
    with their rows and the names of the views that exist.  The program
    creates two views only, each by a fixed statement, so a view is
    identified by its name ([view_source]).  [ingestions] counts how many
    times the bulk city data was loaded into the base table. *)
Record Store : Type := mkStore {
  tables : gmap string (list record);
  views : gset string;
  ingestions : nat
}.

(** The state-and-error monad of the methods that use [self.sqlDB]. *)
Definition M (A : Type) : Type := Store -> result (A * Store).

Definition ret {A : Type} (a : A) : M A := fun db => Ok (a, db).

Definition bind {A B : Type} (m : M A) (k : A -> M B) : M B :=
  fun db =>
    match m db with
    | Ok (a, db') => k a db'
    | Raise e => Raise e
    end.

Definition lift {A : Type} (r : result A) : M A :=
  fun db =>
    match r with
    | Ok a => Ok (a, db)
    | Raise e => Raise e
    end.

Definition gets {A : Type} (f : Store -> A) : M A := fun db => Ok (f db, db).

Definition modify (f : Store -> Store) : M unit := fun db => Ok (tt, f db).

Notation "'let*' x ':=' c1 'in' c2" := (bind c1 (fun x => c2))
  (at level 10, x name, c1 at level 100, c2 at level 200).

(** A column of a row; a column without a value reads as NULL. *)
Definition column (r : record) (c : string) : value :=
  match r !! c with
  | Some v => v
  | None => VNone
  end.

(** [SELECT c1 AS a1, ..., cn AS an] on one row; [cols] lists the pairs
    [(ai, ci)]. *)
Definition select_as (cols : list (string * string)) (r : record) : record :=
  list_to_map (map (fun ac => (fst ac, column r (snd ac))) cols).

(** The two [CREATE VIEW] statements of the program: the base table and
    the aliased columns of each view.  SQLite compares table names without
    regard to case, so [FROM Cities] reads the table [cities]. *)
Definition view_source (view : string) : option (string * list (string * string)) :=
  if String.eqb view "GeoLite2CityLookup" then
    Some ("cities",
          [("name", "city_name");
           ("regionName", "subdivision_1_name");
           ("regionIsoCode", "subdivision_1_iso_code");
           ("countryName", "country_name");
           ("countryIsoCode", "country_iso_code")])
  else if String.eqb view "WikidataCityLookup" then
    Some ("City_wikidata",
          [("name", "name");
           ("regionName", "regionLabel");
           ("regionIsoCode", "regionIsoCode");
           ("countryName", "countryLabel");
           ("countryIsoCode", "countryIsoCode");
           ("population", "cityPopulation");
           ("gdp", "countryGDP_perCapita")])
  else None.

Definition no_such_table (name : string) : exn :=
  OperationalError ("no such table: " +:+ name).

(** [SELECT * FROM table] *)
Definition query_table (name : string) : M (list record) :=
  fun db =>
    match tables db !! name with
    | Some rows => Ok (rows, db)
    | None => Raise (no_such_table name)
    end.

(** [SELECT * FROM view] *)
Definition query_view (view : string) : M (list record) :=
  fun db =>
    if bool_decide (view ∈ views db) then
      match view_source view with
      | Some (base, cols) =>
          match tables db !! base with
          | Some rows => Ok (map (select_as cols) rows, db)
          | None => Raise (no_such_table base)
          end
      | None => Raise (no_such_table view)
      end
    else Raise (no_such_table view).

(** [createTable(..., withDrop=True)] followed by [store]: the table is
    replaced by the given records. *)
Definition store_table (name : string) (rows : list record) : M unit :=
  modify (fun db => {| tables := <[name := rows]> (tables db);
                       views := views db;
                       ingestions := ingestions db |}).

(** [DROP VIEW IF EXISTS view] followed by [CREATE VIEW view AS ...] *)
Definition create_view (view : string) : M unit :=
  modify (fun db => {| tables := tables db;
                       views := {[ view ]} ∪ views db;
                       ingestions := ingestions db |}).

(** [SQLDB.copyTo]: the tables of the source database are written to the
    target. *)
Definition copyTo (source : gmap string (list record)) : M unit :=
  modify (fun db => {| tables := source ∪ tables db;
                       views := views db;
                       ingestions := ingestions db |}).

(** [SQLDB.getTableList]: the names of the tables. *)
Definition getTableList (db : Store) : list string :=
  map fst (map_to_list (tables db)).

(** ** The [Locator] methods *)

Section LocatorMethods.

Variable E : Env.
Variable self : Locator.

(** [Locator.db_recordCount]; the count query runs on a table that was
    just listed, so it cannot fail. *)
Definition db_recordCount (tableList : list string) (tableName : string) (db : Store) : Z :=
  let tableFound := existsb (String.eqb tableName) tableList in
  if tableFound then
    match tables db !! tableName with
    | Some rows => Z.of_nat (length rows)
    | None => 0
    end
  else 0.

(** [Locator.db_has_data] *)
Definition db_has_data (db : Store) : bool :=
  let tableList := getTableList db in
  let hasCities := (10000 <? db_recordCount tableList "cities" db)%Z in
  if useWikiData self then
    let hasCountries := (100 <? db_recordCount tableList "countries" db)%Z in
    let hasRegions := (1000 <? db_recordCount tableList "regions" db)%Z in
    let hasWikidataCities := (100000 <? db_recordCount tableList "City_wikidata" db)%Z in
    hasCities && hasWikidataCities && hasRegions && hasCountries
  else hasCities.

(** [Locator.getView] *)
Definition getView : string :=
  if useWikiData self then "WikidataCityLookup" else "GeoLite2CityLookup".

(** [Locator.getGeolite2Cities] *)
Definition getGeolite2Cities : list record := GeoLite2_City_Locations E.

(** [Locator.populate_Cities] *)
Definition populate_Cities : M unit :=
  let cities := getGeolite2Cities in
  let* _ := modify (fun db => {| tables := tables db; views := views db;
                                 ingestions := S (ingestions db) |}) in
  let* _ := store_table "cities" cities in
  create_view "GeoLite2CityLookup".

(** [Locator.populate_Countries] *)
Definition populate_Countries : M unit :=
  store_table "countries" (wikidata_countryList E).

(** [Locator.populate_Regions] *)
Definition populate_Regions : M unit :=
  store_table "regions" (wikidata_regionList E).

(** [Locator.populate_Cities_FromWikidata] *)
Definition populate_Cities_FromWikidata : M unit :=
  copyTo (City_wikidata_db E).

(** [Locator.populate_PrefixTree] *)
Definition populate_PrefixTree : M unit :=
  let* nameRecords := query_view getView in
  let names := map (fun nameRecord => column nameRecord "name") nameRecords in
  store_table "prefixes" (PrefixTree_store E names).

(** [Locator.populate_PrefixAmbiguities]: the distinct names of the view
    that equal the [prefix] of some row of [prefixes].  The statement's
    [order by] is left out: only membership in the resulting table is
    ever tested. *)
Definition populate_PrefixAmbiguities : M unit :=
  let* c := query_view getView in
  let* p := query_table "prefixes" in
  let joined :=
    List.filter
      (fun name => match name with
                   | VNone => false
                   | _ => existsb (fun row => bool_decide (column row "prefix" = name)) p
                   end)
      (map (fun row => column row "name") c) in
  let ambigousPrefixes :=
    map (fun name => ({[ "name" := name ]} : record)) (remove_dups joined) in
  store_table "ambiguous" ambigousPrefixes.

(** [Locator.populate_db] *)
Definition populate_db (force : bool) : M unit :=
  let* has := gets db_has_data in
  if negb has || force then
    let* _ := populate_Cities in
    let* _ :=
      (if useWikiData self then
         let* _ := populate_Countries in
         let* _ := populate_Regions in
         let* _ := populate_Cities_FromWikidata in
         create_view "WikidataCityLookup"
       else ret tt) in
    let* _ := populate_PrefixTree in
    populate_PrefixAmbiguities
  else ret tt.

(** [Locator.isPrefix] *)
Definition isPrefix (name : string) (level : Z) : M bool :=
  let* rows := query_table "prefixes" in
  let prefixResult :=
    List.filter (fun row => bool_decide (row !! "prefix" = Some (VStr name))
                            && bool_decide (row !! "level" = Some (VInt level))) rows in
  ret (0 <? Z.of_nat (length prefixResult))%Z.

(** [Locator.isAmbiguousPrefix] *)
Definition isAmbiguousPrefix (name : string) : M bool :=
  let* rows := query_table "ambiguous" in
  let aResult :=
    List.filter (fun row => bool_decide (row !! "name" = Some (VStr name))) rows in
  ret (0 <? Z.of_nat (length aResult))%Z.

(** [Locator.places_by_name] *)
Definition places_by_name (placeName columnName : string) : M (list record) :=
  let* has := gets db_has_data in
  let* _ := (if negb has then populate_db false else ret tt) in
  let view := getView in
  let* rows := query_view view in
  ret (List.filter (fun row => bool_decide (row !! columnName = Some (VStr placeName))) rows).

(** [Locator.cities_for_name] *)
Definition cities_for_name (cityName : string) : M (list City.t) :=
  let* cityRecords := places_by_name cityName "name" in
  lift (mapR City.fromGeoLite2 cityRecords).

(** [Locator.regions_for_name] *)
Definition regions_for_name (region_name : string) : M (list Region.t) :=
  let* regionRecords :=
    (if isISO region_name then places_by_name region_name "regionIsoCode"
     else places_by_name region_name "regionName") in
  lift (mapR Region.fromGeoLite2 regionRecords).

(** The loop of [Locator.correct_country_misspelling] over the rows of
    the CSV file. *)
Fixpoint correct_country_misspelling_rows (rows : list (list string)) (name : string)
  : result string :=
  match rows with
  | [] => Ok name
  | row :: rows' =>
      match row !! 0%nat with
      | None => Raise IndexError
      | Some row0 =>
          if str_contains name (remove_non_ascii E row0) then
            match row !! 2%nat with
            | None => Raise IndexError
            | Some row2 => Ok row2
            end
          else correct_country_misspelling_rows rows' name
      end
  end.

(** [Locator.correct_country_misspelling] *)
Definition correct_country_misspelling (name : string) : result string :=
  correct_country_misspelling_rows (ISO3166ErrorDictionary E) name.

(** [Locator.getCountry] *)
Definition getCountry (name : string) : result (option Country.t) :=
  let? pcountry :=
    (if isISO name then Ok (pycountry_alpha_2 E name)
     else
       let? name :=
         (if correctMisspelling self then correct_country_misspelling name
          else Ok name) in
       Ok (pycountry_name E name)) in
  let country := match pcountry with
                 | Some pcountry => Some (Country.fromPyCountry pcountry)
                 | None => None
                 end in
  Ok country.

(** [Locator.is_a_country] *)
Definition is_a_country (name : string) : result bool :=
  let? country := getCountry name in
  Ok (match country with Some _ => true | None => false end).

End LocatorMethods.

(** ** The tie-break policy *)

(** A [for] loop over [cities] that assigns the first city satisfying
    [test] to [foundCity] and breaks; [foundCity] keeps its value when no
    city does. *)
Definition first_city (test : City.t -> bool) (cities : list City.t)
    (foundCity : option City.t) : option City.t :=
  match List.find test cities with
  | Some city => Some city
  | None => foundCity
  end.

(** [city.country.iso==country.iso] *)
Definition same_country (country : Country.t) (city : City.t) : bool :=
  bool_decide (Country.iso (City.country city) = Country.iso country).

(** [city.region.iso==region.iso and not city.region.name==city.name] *)
Definition in_region (region : Region.t) (city : City.t) : bool :=
  bool_decide (Region.iso (City.region city) = Region.iso region)
  && negb (bool_decide (Region.name (City.region city) = City.name city)).

(** The loop over [regions] of [Locator.disambiguate]: after the inner
    loop over the cities, the outer loop breaks as soon as [foundCity] is
    not [None]. *)
Fixpoint region_loop (regions : list Region.t) (cities : list City.t)
    (foundCity : option City.t) : option City.t :=
  match regions with
  | [] => foundCity
  | region :: regions' =>
      let foundCity := first_city (in_region region) cities foundCity in
      match foundCity with
      | Some _ => foundCity
      | None => region_loop regions' cities foundCity
      end
  end.

(** [Locator.disambiguate].  The [debug] output is not modelled: it only
    prints. *)
Definition disambiguate (country : option Country.t) (regions : list Region.t)
    (cities : list City.t) : option City.t :=
  let foundCity : option City.t := None in
  if Nat.eqb (length cities) 1 then
    head cities
  else
    let foundCity :=
      match Nat.ltb 1 (length cities), country with
      | true, Some country => first_city (same_country country) cities foundCity
      | _, _ => foundCity
      end in
    let foundCity :=
      if Nat.ltb 1 (length cities) && Nat.ltb 0 (length regions) then
        region_loop regions cities foundCity
      else foundCity in
    foundCity.

(** ** The token scan *)

Module Scan.
(** The local variables of [Locator.locate] that live across the
    iterations of its loop. *)
Record state : Type := mk {
  country : option Country.t;
  cities : list City.t;
  regions : list Region.t;
  level : Z;
  prefix : string
}.

Definition init : state :=
  {| country := None; cities := []; regions := []; level := 1; prefix := "" |}.
End Scan.

Module Iter.
(** What one iteration of the loop of [Locator.locate] did: the store
    and the scan variables it started from, the token, the locals
    [isPrefix], [isAmbigous] and [checkPlace], and the results
    [(foundCountry, foundCities, foundRegions)] of the three lookups
    when the lookup branch ran, [None] when it did not. *)
Record t : Type := mk {
  db_before : Store;
  place : string;
  prefix_before : string;
  level_before : Z;
  isPrefix : bool;
  isAmbigous : bool;
  checkPlace : string;
  lookups : option (option Country.t * list City.t * list Region.t)
}.
End Iter.

Section LocatorScan.

Variable E : Env.
Variable self : Locator.

(** The body of the loop of [Locator.locate]. *)
Definition locate_step (st : Scan.state) (place : string) : M (Scan.state * Iter.t) :=
  let country := Scan.country st in
  let cities := Scan.cities st in
  let regions := Scan.regions st in
  let level := Scan.level st in
  let prefix := Scan.prefix st in
  let* db0 := gets (fun db => db) in
  let* isPrefix_ := isPrefix (prefix +:+ place) level in
  let isAmbigous := false in
  let prefix := if negb isPrefix_ then "" else prefix in
  let checkPlace := prefix +:+ place in
  let* grown :=
    (if isPrefix_ then
       let* isAmbigous := isAmbiguousPrefix (prefix +:+ place) in
       ret (isAmbigous, level + 1, prefix +:+ place +:+ " ")
     else ret (isAmbigous, level, prefix)) in
  let isAmbigous := fst (fst grown) in
  let level := snd (fst grown) in
  let prefix := snd grown in
  let it lookups :=
    {| Iter.db_before := db0;
       Iter.place := place;
       Iter.prefix_before := Scan.prefix st;
       Iter.level_before := Scan.level st;
       Iter.isPrefix := isPrefix_;
       Iter.isAmbigous := isAmbigous;
       Iter.checkPlace := checkPlace;
       Iter.lookups := lookups |} in
  if negb isPrefix_ || isAmbigous then
    let* foundCountry := lift (getCountry E self checkPlace) in
    let country := match foundCountry with
                   | Some foundCountry => Some foundCountry
                   | None => country
                   end in
    let* foundCities := cities_for_name E self checkPlace in
    let cities := (cities ++ foundCities)%list in
    let* foundRegions := regions_for_name E self checkPlace in
    let regions := (regions ++ foundRegions)%list in
    ret ({| Scan.country := country; Scan.cities := cities; Scan.regions := regions;
            Scan.level := level; Scan.prefix := prefix |},
         it (Some (foundCountry, foundCities, foundRegions)))
  else
    ret ({| Scan.country := country; Scan.cities := cities; Scan.regions := regions;
            Scan.level := level; Scan.prefix := prefix |},
         it None).

(** The loop of [Locator.locate], with the list of its iterations. *)
Fixpoint locate_scan (st : Scan.state) (places : list string)
  : M (Scan.state * list Iter.t) :=
  match places with
  | [] => ret (st, [])
  | place :: places' =>
      let* r := locate_step st place in
      let* r' := locate_scan (fst r) places' in
      ret (fst r', snd r :: snd r')
  end.

(** [Locator.locate] *)
Definition locate (places : list string) : M (option City.t) :=
  let* _ := populate_db E self false in
  let* r := locate_scan Scan.init places in
  let st := fst r in
  let foundCity := disambiguate (Scan.country st) (Scan.regions st) (Scan.cities st) in
  ret foundCity.

End LocatorScan.

(** ** The specification's reading of the misspelling correction *)

(** The correction as the specification words it, to be compared with
    [correct_country_misspelling]: the ASCII-normalised input is compared
    with the variant of each row, and the canonical name of the first row
    whose variant it equals replaces the input; without such a row the
    name is returned unchanged. *)
Definition literal_substitution (E : Env) (name : string) : string :=
  match List.find (fun row => bool_decide (row !! 0%nat = Some (remove_non_ascii E name)))
                  (ISO3166ErrorDictionary E) with
  | Some row => match row !! 2%nat with
                | Some canonical => canonical
                | None => name
                end
  | None => name
  end.

(** ** Sample data *)

(** Modelled from the spec: [utils.remove_non_ascii] is not among the
    sources; the specification calls its effect ASCII normalisation.  Here
    it keeps the bytes below 128, that is, it drops every character
    outside ASCII. *)
Fixpoint drop_non_ascii (s : string) : string :=
  match s with
  | EmptyString => EmptyString
  | String c s' =>
      if N.ltb (N_of_ascii c) 128 then String c (drop_non_ascii s') else drop_non_ascii s'
  end.

(** A row of [GeoLite2-City-Locations-en.csv], with the columns the
    program reads. *)
Definition geo_row (id city sub_iso sub country_iso country : string) : record :=
  {[ "geoname_id" := VStr id;
     "city_name" := VStr city;
     "subdivision_1_iso_code" := VStr sub_iso;
     "subdivision_1_name" := VStr sub;
     "country_iso_code" := VStr country_iso;
     "country_name" := VStr country ]}.

Definition prefix_row (p : string) (l c : Z) : record :=
  {[ "prefix" := VStr p; "level" := VInt l; "count" := VInt c ]}.

Definition sample_cities : list record :=
  [ geo_row "2988507" "Paris" "IDF" "Ile-de-France" "FR" "France";
    geo_row "4717560" "Paris" "TX" "Texas" "US" "United States";
    geo_row "5391959" "San Francisco" "CA" "California" "US" "United States";
    geo_row "5392171" "San Jose" "CA" "California" "US" "United States";
    geo_row "2761369" "Vienna" "9" "Vienna" "AT" "Austria" ].

Definition sample_pycountry : list PyCountry :=
  [ mkPyCountry "France" "FR";
    mkPyCountry "United States" "US";
    mkPyCountry "Austria" "AT";
    mkPyCountry "Niger" "NE";
    mkPyCountry "Nigeria" "NG" ].

(** A small world: five cities, five countries, one misspelling row, and
    the one prefix the five city names have: "San", the first word of two
    of them. *)
Definition sample_env : Env :=
  {| pycountry_alpha_2 :=
       fun s => List.find (fun c => String.eqb (pc_alpha_2 c) s) sample_pycountry;
     pycountry_name :=
       fun s => List.find (fun c => String.eqb (pc_name c) s) sample_pycountry;
     remove_non_ascii := drop_non_ascii;
     ISO3166ErrorDictionary := [["Nigerria"; "NG"; "Nigeria"]];
     GeoLite2_City_Locations := sample_cities;
     wikidata_countryList := [];
     wikidata_regionList := [];
     City_wikidata_db := ∅;
     PrefixTree_store := fun _ => [prefix_row "San" 1 2] |}.

(** The same world with a bulk file above the threshold of
    [db_has_data]. *)
Definition bulk_env : Env :=
  {| pycountry_alpha_2 := pycountry_alpha_2 sample_env;
     pycountry_name := pycountry_name sample_env;
     remove_non_ascii := drop_non_ascii;
     ISO3166ErrorDictionary := ISO3166ErrorDictionary sample_env;
     GeoLite2_City_Locations :=
       (sample_cities ++ replicate (Z.to_nat 10001) (geo_row "0" "Nowhere" "" "" "" ""))%list;
     wikidata_countryList := [];
     wikidata_regionList := [];
     City_wikidata_db := ∅;
     PrefixTree_store := PrefixTree_store sample_env |}.

(** The default configuration, and the one that corrects misspellings. *)
Definition default_locator : Locator :=
  {| debug := false; correctMisspelling := false; useWikiData := false |}.

Definition correcting_locator : Locator :=
  {| debug := false; correctMisspelling := true; useWikiData := false |}.

(** A store file that does not exist yet. *)
Definition empty_store : Store :=
  {| tables := ∅; views := ∅; ingestions := 0 |}.

Definition paris_fr : City.t :=
  {| City.name := VStr "Paris"; City.population := VNone; City.gdp := VNone;
     City.region := {| Region.name := VStr "Ile-de-France"; Region.iso := VStr "IDF" |};
     City.country := {| Country.name := VStr "France"; Country.iso := VStr "FR" |} |}.

Definition paris_tx : City.t :=
  {| City.name := VStr "Paris"; City.population := VNone; City.gdp := VNone;
     City.region := {| Region.name := VStr "Texas"; Region.iso := VStr "TX" |};
     City.country := {| Country.name := VStr "United States"; Country.iso := VStr "US" |} |}.

Definition france : Country.t := {| Country.name := VStr "France"; Country.iso := VStr "FR" |}.

Definition texas : Region.t := {| Region.name := VStr "Texas"; Region.iso := VStr "TX" |}.

(** ["US\n"]: an ISO code followed by a newline. *)
Definition us_newline : string := "US" +:+ String newline EmptyString.

(** ** Outcomes of sample runs *)

Definition succeeds {A : Type} (r : result A) : bool :=
  match r with
  | Ok _ => true
  | Raise _ => false
  end.

(** The value of a run, [d] when it raises. *)
Definition outcome {A : Type} (d : A) (r : result A) : A :=
  match r with
  | Ok a => a
  | Raise _ => d
  end.

(** The value a run returns, without its final store. *)
Definition returned {A : Type} (r : result (A * Store)) : option A :=
  match r with
  | Ok (a, _) => Some a
  | Raise _ => None
  end.

(** The store a run ends in, [d] when it raises. *)
Definition final_store {A : Type} (d : Store) (r : result (A * Store)) : Store :=
  match r with
  | Ok (_, db) => db
  | Raise _ => d
  end.

(** The store after [populate_db()] on a store file that does not exist,
    in the small world. *)
Definition sample_store : Store :=
  final_store empty_store (populate_db sample_env default_locator false empty_store).

(** The outcome of the scan of [locate] from its initial variables. *)
Definition scan_of (E : Env) (self : Locator) (places : list string) (db : Store)
  : Scan.state * list Iter.t * Store :=
  outcome ((Scan.init, []), db) (locate_scan E self Scan.init places db).

Definition san_xyz : Scan.state * list Iter.t * Store :=
  scan_of sample_env default_locator ["San"; "Xyz"] sample_store.

Definition san_jose_tx : Scan.state * list Iter.t * Store :=
  scan_of sample_env default_locator ["San"; "Jose"; "TX"] sample_store.

(** ** Predicates used in the statements *)

(** [needle] occurs in [hay]. *)
Definition is_substring (needle hay : string) : Prop :=
  exists pre post, hay = pre +:+ needle +:+ post.

(** The row's variant, ASCII-normalised, contains [name]. *)
Definition variant_contains (E : Env) (name : string) (row : list string) : Prop :=
  exists variant, row !! 0%nat = Some variant /\
                  is_substring name (remove_non_ascii E variant).

(** The characters of an ISO code: [0-9A-Z]. *)
Definition iso_char (c : ascii) : bool :=
  in_class [("0"%char, "9"%char); ("A"%char, "Z"%char)] c.

(** The store has what the scan queries: the two derived tables, the
    lookup view of the configuration and the base table of that view. *)
Definition store_ready (self : Locator) (db : Store) : Prop :=
  is_Some (tables db !! "prefixes") /\
  is_Some (tables db !! "ambiguous") /\
  getView self ∈ views db /\
  is_Some (tables db !! (if useWikiData self then "City_wikidata" else "cities")).

(** The downloaded Wikidata database, when it is used, has the table the
    Wikidata view reads. *)
Definition source_available (E : Env) (self : Locator) : Prop :=
  useWikiData self = true -> is_Some (City_wikidata_db E !! "City_wikidata").

(** Every row of the misspelling table has its three columns. *)
Definition dictionary_well_formed (E : Env) : Prop :=
  Forall (fun row => (3 <= length row)%nat) (ISO3166ErrorDictionary E).

(** [record] is a row of the lookup view of the configuration. *)
Definition view_row (self : Locator) (record : record) : Prop :=
  exists base cols r,
    view_source (getView self) = Some (base, cols) /\ record = select_as cols r.

(** The store after [populate_db()] on a store file that does not exist,
    with the large bulk file. *)
Definition bulk_store : Store :=
  final_store empty_store (populate_db bulk_env default_locator false empty_store).

Definition vienna : City.t :=
  {| City.name := VStr "Vienna"; City.population := VNone; City.gdp := VNone;
     City.region := {| Region.name := VStr "Vienna"; Region.iso := VStr "9" |};
     City.country := {| Country.name := VStr "Austria"; Country.iso := VStr "AT" |} |}.

Definition vienna_scan : Scan.state * list Iter.t * Store :=
  scan_of sample_env default_locator ["Vienna"] sample_store.

(** ** What an iteration does *)

(** What an iteration that completes has done, read off the body of
    the loop. *)
Definition step_facts (E : Env) (self : Locator) (st : Scan.state) (place : string) (db : Store)
    (st' : Scan.state) (it : Iter.t) (db' : Store) : Prop :=
  Iter.db_before it = db /\
  Iter.place it = place /\
  Iter.prefix_before it = Scan.prefix st /\
  Iter.level_before it = Scan.level st /\
  isPrefix (Scan.prefix st +:+ place) (Scan.level st) db = Ok (Iter.isPrefix it, db) /\
  (if Iter.isPrefix it
   then isAmbiguousPrefix (Scan.prefix st +:+ place) db = Ok (Iter.isAmbigous it, db)
   else Iter.isAmbigous it = false) /\
  Iter.checkPlace it = (if Iter.isPrefix it then Scan.prefix st +:+ place else place) /\
  Scan.level st' = (if Iter.isPrefix it then Scan.level st + 1 else Scan.level st) /\
  Scan.prefix st' = (if Iter.isPrefix it then Scan.prefix st +:+ place +:+ " " else "") /\
  (if negb (Iter.isPrefix it) || Iter.isAmbigous it
   then exists foundCountry foundCities foundRegions db1,
       getCountry E self (Iter.checkPlace it) = Ok foundCountry /\
       cities_for_name E self (Iter.checkPlace it) db = Ok (foundCities, db1) /\
       regions_for_name E self (Iter.checkPlace it) db1 = Ok (foundRegions, db') /\
       Iter.lookups it = Some (foundCountry, foundCities, foundRegions) /\
       Scan.country st' = match foundCountry with
                          | Some c => Some c
                          | None => Scan.country st
                          end /\
       Scan.cities st' = (Scan.cities st ++ foundCities)%list /\
       Scan.regions st' = (Scan.regions st ++ foundRegions)%list
   else Iter.lookups it = None /\ db' = db /\
        Scan.country st' = Scan.country st /\
        Scan.cities st' = Scan.cities st /\
        Scan.regions st' = Scan.regions st).

(** ** What a population writes *)

(** The tables after the Wikidata part of [populate_db]: nothing changes
    when Wikidata is not used; otherwise [countries] and [regions] are
    replaced and the tables of the downloaded database are copied in. *)
Definition wikidata_tables (E : Env) (self : Locator) (t : gmap string (list record))
  : gmap string (list record) :=
  if useWikiData self
  then City_wikidata_db E ∪
       <["regions" := wikidata_regionList E]>
         (<["countries" := wikidata_countryList E]> t)
  else t.




(** The name of the base table of the lookup view. *)
Definition base_table (self : Locator) : string :=
  if useWikiData self then "City_wikidata" else "cities".

(** ** What the iterations of a scan found *)





(** The pending prefix after the iterations [its], starting from
    [prefix]: a prefix token is appended with a space, any other token
    empties it. *)
Definition pending_prefix (prefix : string) (its : list Iter.t) : string :=
  fold_left (fun prefix it => if Iter.isPrefix it
                              then prefix +:+ Iter.place it +:+ " "
                              else "") its prefix.

(** ** The singleton *)

(** The attributes [Locator.__init__] sets from its arguments. *)
Record Instance : Type := mkInstance {
  inst_debug : bool;
  inst_correctMisspelling : bool;
  inst_db_file : string
}.

(** [Locator.__init__]; [db_path] is the directory of the module.
    [db_file or ...]: [None] and the empty string give the default file. *)
Definition Locator_init (db_path : string) (db_file : option string)
    (correctMisspelling debug : bool) : Instance :=
  {| inst_debug := debug;
     inst_correctMisspelling := correctMisspelling;
     inst_db_file := match db_file with
                     | Some file => if String.eqb file "" then db_path +:+ "/locs.db"
                                    else file
                     | None => db_path +:+ "/locs.db"
                     end |}.

(** [Locator.resetInstance], on the class attribute [Locator.locator]. *)
Definition resetInstance (locator : option Instance) : option Instance := None.

(** [Locator.getInstance]: the instance returned and the class attribute
    [Locator.locator] after the call. *)
Definition getInstance (db_path : string) (locator : option Instance)
    (correctMisspelling debug : bool) : Instance * option Instance :=
  match locator with
  | None =>
      let locator := Locator_init db_path None correctMisspelling debug in
      (locator, Some locator)
  | Some locator => (locator, Some locator)
  end.

(** ** String representations *)

(** [str(v)] for the values of attributes. *)
Definition str_value (v : value) : string :=
  match v with
  | VNone => "None"
  | VStr s => s
  | VInt z => pretty z
  end.

(** [Region.__str__] *)
Definition Region_str (self : Region.t) : string :=
  str_value (Region.iso self) +:+ "(" +:+ str_value (Region.name self) +:+ ")".

(** [Country.__str__] *)
Definition Country_str (self : Country.t) : string :=
  str_value (Country.iso self) +:+ "(" +:+ str_value (Country.name self) +:+ ")".

(** [City.__str__] *)
Definition City_str (self : City.t) : string :=
  str_value (City.name self) +:+ " (" +:+ Region_str (City.region self) +:+ " - "
  +:+ Country_str (City.country self) +:+ ")".
(** * Properties *)

(** ** The monad *)

Lemma bind_Ok {A B : Type} (m : M A) (k : A -> M B) db b db' :
  bind m k db = Ok (b, db') ->
  exists a db1, m db = Ok (a, db1) /\ k a db1 = Ok (b, db').
Proof.
  unfold bind. destruct (m db) as [[a db1]|e]; [eauto | discriminate].
Qed.

Lemma bind_run {A B : Type} (m : M A) (k : A -> M B) db a db1 :
  m db = Ok (a, db1) -> bind m k db = k a db1.
Proof. intros H. unfold bind. now rewrite H. Qed.

Lemma lift_Ok {A : Type} (r : result A) db a db' :
  lift r db = Ok (a, db') -> r = Ok a /\ db' = db.
Proof. unfold lift. destruct r; intros H; inversion H; auto. Qed.

Lemma bindR_Ok {A B : Type} (r : result A) (k : A -> result B) b :
  bindR r k = Ok b -> exists a, r = Ok a /\ k a = Ok b.
Proof. destruct r; simpl; [eauto | discriminate]. Qed.

(** Run the first computation of a [bind] whose outcome is known. *)
Tactic Notation "run_bind" open_constr(H) := rewrite (bind_run _ _ _ _ _ H).

(** ** Sample runs *)

Lemma outcome_Ok {A : Type} (d : A) (r : result A) :
  succeeds r = true -> r = Ok (outcome d r).
Proof. destruct r; [reflexivity | discriminate]. Qed.

Lemma returned_Ok {A : Type} (d : Store) (r : result (A * Store)) (a : A) :
  returned r = Some a -> r = Ok (a, final_store d r).
Proof. destruct r as [[a' db]|e]; cbn; [intros [= ->]; reflexivity | discriminate]. Qed.

Lemma scan_of_Ok E self places db :
  succeeds (locate_scan E self Scan.init places db) = true ->
  locate_scan E self Scan.init places db =
  Ok ((fst (fst (scan_of E self places db)), snd (fst (scan_of E self places db))),
      snd (scan_of E self places db)).
Proof.
  intros H. unfold scan_of.
  rewrite (outcome_Ok ((Scan.init, []), db) _ H) at 1.
  now destruct (outcome _ _) as [[? ?] ?].
Qed.

(** ** First match of a loop with [break] *)

Lemma find_first {A : Type} (p : A -> bool) (l : list A) (x : A) :
  List.find p l = Some x <->
  exists l1 l2, l = (l1 ++ x :: l2)%list /\ p x = true /\ Forall (fun y => p y = false) l1.
Proof.
  split.
  - induction l as [|y l IH]; simpl; [discriminate|].
    destruct (p y) eqn:Hy.
    + intros [= ->]. exists [], l. auto.
    + intros H. destruct (IH H) as (l1 & l2 & -> & Hx & Hl1).
      exists (y :: l1), l2. auto.
  - intros (l1 & l2 & -> & Hx & Hl1).
    induction Hl1 as [|y l1 Hy _ IH]; simpl.
    + now rewrite Hx.
    + now rewrite Hy.
Qed.

Lemma find_none_Forall {A : Type} (p : A -> bool) (l : list A) :
  List.find p l = None <-> Forall (fun y => p y = false) l.
Proof.
  induction l as [|y l IH]; simpl.
  - split; auto.
  - destruct (p y) eqn:Hy.
    + split; [discriminate|]. intros H. inversion H; congruence.
    + rewrite IH. split; [auto|]. intros H. now inversion H.
Qed.

(** ** The tie-break policy *)

Lemma region_loop_found regions cities city :
  region_loop regions cities (Some city) =
  match regions with
  | [] => Some city
  | region :: _ =>
      match List.find (in_region region) cities with
      | Some city' => Some city'
      | None => Some city
      end
  end.
Proof.
  destruct regions as [|region regions]; simpl; [reflexivity|].
  unfold first_city. now destruct (List.find (in_region region) cities).
Qed.

(** C5: when the scan has accumulated exactly one city, [disambiguate]
    returns it whatever the country and the regions are, and so does
    [locate]. *)
Theorem single_city_returned E self places db db1 st its db2 city :
  populate_db E self false db = Ok (tt, db1) ->
  locate_scan E self Scan.init places db1 = Ok ((st, its), db2) ->
  Scan.cities st = [city] ->
  (forall country regions, disambiguate country regions [city] = Some city) /\
  locate E self places db = Ok (Some city, db2).
Proof.
  intros Hpop Hscan Hcities. split; [reflexivity|].
  unfold locate.
  rewrite (bind_run _ _ _ _ _ Hpop), (bind_run _ _ _ _ _ Hscan).
  simpl. now rewrite Hcities.
Qed.

Lemma single_city_returned_witness :
  (forall country regions, disambiguate country regions [vienna] = Some vienna) /\
  locate sample_env default_locator ["Vienna"] empty_store
  = Ok (Some vienna, snd vienna_scan).
Proof.
  apply (single_city_returned sample_env default_locator ["Vienna"] empty_store
           sample_store (fst (fst vienna_scan)) (snd (fst vienna_scan))).
  - unfold sample_store. apply (returned_Ok empty_store). vm_compute. reflexivity.
  - apply scan_of_Ok. vm_compute. reflexivity.
  - vm_compute. reflexivity.
Defined.

(** C1 (as amended): with several cities, a resolved country and a city
    of that country among them, [disambiguate] returns the first city of
    that country in scan order, unless some city satisfies the region
    rule for the first accumulated region, in which case it returns the
    first city that does. *)
Theorem disambiguate_country_then_first_region (country : Country.t)
    (regions : list Region.t) (cities : list City.t) :
  (1 < length cities)%nat ->
  (exists city, city ∈ cities /\
                Country.iso (City.country city) = Country.iso country) ->
  exists before first after,
    cities = (before ++ first :: after)%list /\
    Country.iso (City.country first) = Country.iso country /\
    Forall (fun city => Country.iso (City.country city) <> Country.iso country) before /\
    disambiguate (Some country) regions cities =
      match regions with
      | [] => Some first
      | region :: _ =>
          match List.find (in_region region) cities with
          | Some city => Some city
          | None => Some first
          end
      end.
Proof.
  intros Hlen (city & Hin & Hiso).
  destruct (List.find (same_country country) cities) as [first|] eqn:Hfind.
  - destruct (proj1 (find_first _ _ _) Hfind) as (before & after & Hsplit & Hfirst & Hbefore).
    exists before, first, after. split; [exact Hsplit|].
    unfold same_country in Hfirst. apply bool_decide_eq_true in Hfirst.
    split; [exact Hfirst|]. split.
    + eapply Forall_impl; [exact Hbefore|]. intros c Hc.
      unfold same_country in Hc. now apply bool_decide_eq_false in Hc.
    + unfold disambiguate.
      destruct (Nat.eqb_spec (length cities) 1) as [Heq|_]; [lia|].
      destruct (Nat.ltb_spec 1 (length cities)) as [_|Hle]; [|lia].
      assert (Hc : first_city (same_country country) cities None = Some first)
        by (unfold first_city; now rewrite Hfind).
      rewrite Hc.
      destruct regions as [|region regions]; [reflexivity|].
      cbn [length Nat.ltb Nat.leb andb].
      exact (region_loop_found (region :: regions) cities first).
  - apply find_none_Forall in Hfind. rewrite Forall_forall in Hfind.
    specialize (Hfind city Hin). unfold same_country in Hfind.
    apply bool_decide_eq_false in Hfind. contradiction.
Qed.

Lemma disambiguate_country_then_first_region_witness :
  exists before first after,
    [paris_fr; paris_tx] = (before ++ first :: after)%list /\
    Country.iso (City.country first) = Country.iso france /\
    Forall (fun city => Country.iso (City.country city) <> Country.iso france) before /\
    disambiguate (Some france) [texas] [paris_fr; paris_tx] =
      match List.find (in_region texas) [paris_fr; paris_tx] with
      | Some city => Some city
      | None => Some first
      end.
Proof.
  apply (disambiguate_country_then_first_region france [texas] [paris_fr; paris_tx]).
  - simpl. lia.
  - exists paris_fr. split; [apply list_elem_of_here | reflexivity].
Defined.

(** C1, counterexample: Paris in France and Paris in Texas were found,
    the resolved country is France and the region Texas was found.  The
    first city of the resolved country is the French one, and the region
    rule replaces it by the Texan one.  The tokens "Paris", "TX",
    "France" lead [locate] to this very call. *)
Lemma region_rule_overrides_country_rule :
  (1 < length [paris_fr; paris_tx])%nat /\
  Country.iso (City.country paris_fr) = Country.iso france /\
  List.find (same_country france) [paris_fr; paris_tx] = Some paris_fr /\
  disambiguate (Some france) [texas] [paris_fr; paris_tx] = Some paris_tx /\
  paris_tx <> paris_fr /\
  returned (locate sample_env default_locator ["Paris"; "TX"; "France"] empty_store)
  = Some (Some paris_tx).
Proof.
  split; [simpl; lia|]. split; [reflexivity|]. split; [reflexivity|].
  split; [reflexivity|]. split; [discriminate|]. vm_compute. reflexivity.
Qed.

(** ** Queries that only read the store *)

Lemma query_table_Ok name db rows db' :
  query_table name db = Ok (rows, db') -> db' = db /\ tables db !! name = Some rows.
Proof.
  unfold query_table. destruct (tables db !! name); intros H; inversion H; auto.
Qed.

Lemma isPrefix_Ok name level db b db' :
  isPrefix name level db = Ok (b, db') -> db' = db.
Proof.
  unfold isPrefix. intros H. apply bind_Ok in H as (rows & db1 & Hq & Hr).
  apply query_table_Ok in Hq as [-> _]. now inversion Hr.
Qed.

Lemma isAmbiguousPrefix_Ok name db b db' :
  isAmbiguousPrefix name db = Ok (b, db') -> db' = db.
Proof.
  unfold isAmbiguousPrefix. intros H. apply bind_Ok in H as (rows & db1 & Hq & Hr).
  apply query_table_Ok in Hq as [-> _]. now inversion Hr.
Qed.

(** ** One iteration of the scan *)

Section Step.

Variable E : Env.
Variable self : Locator.

Lemma locate_step_Ok st place db st' it db' :
  locate_step E self st place db = Ok ((st', it), db') ->
  step_facts E self st place db st' it db'.
Proof.
  unfold locate_step, step_facts. intros H.
  apply bind_Ok in H as (db0 & dbx & Hg & H). inversion Hg; subst db0 dbx; clear Hg.
  apply bind_Ok in H as (p & db1 & Hp & H).
  pose proof (isPrefix_Ok _ _ _ _ _ Hp) as ->.
  destruct p; cbn [negb] in H.
  - apply bind_Ok in H as ([[a l] q] & db2 & Hg & H).
    apply bind_Ok in Hg as (a' & db3 & Ha & Hr).
    pose proof (isAmbiguousPrefix_Ok _ _ _ _ Ha) as ->.
    inversion Hr; subst a' l q db2; clear Hr.
    cbn [fst snd orb] in H. destruct a.
    + apply bind_Ok in H as (fc & db4 & Hc & H). apply lift_Ok in Hc as [Hc ->].
      apply bind_Ok in H as (fcs & db5 & Hcs & H).
      apply bind_Ok in H as (frs & db6 & Hrs & H).
      inversion H; subst; clear H. cbn.
      repeat (split; [first [reflexivity | assumption]|]).
      exists fc, fcs, frs, db5. repeat (split; [first [reflexivity | assumption]|]).
      reflexivity.
    + inversion H; subst; clear H. cbn.
      repeat (split; [first [reflexivity | assumption]|]). auto.
  - apply bind_Ok in H as ([[a l] q] & db2 & Hg & H).
    inversion Hg; subst a l q db2; clear Hg.
    cbn [fst snd orb] in H.
    apply bind_Ok in H as (fc & db4 & Hc & H). apply lift_Ok in Hc as [Hc ->].
    apply bind_Ok in H as (fcs & db5 & Hcs & H).
    apply bind_Ok in H as (frs & db6 & Hrs & H).
    inversion H; subst; clear H. cbn.
    repeat (split; [first [reflexivity | assumption]|]).
    exists fc, fcs, frs, db5. repeat (split; [first [reflexivity | assumption]|]).
    reflexivity.
Qed.

(** The scan is the iteration of the step. *)
Lemma locate_scan_cons st place places db st' its db' :
  locate_scan E self st (place :: places) db = Ok ((st', its), db') ->
  exists st1 it db1 its1,
    locate_step E self st place db = Ok ((st1, it), db1) /\
    locate_scan E self st1 places db1 = Ok ((st', its1), db') /\
    its = it :: its1.
Proof.
  cbn [locate_scan]. intros H.
  apply bind_Ok in H as ([st1 it] & db1 & Hstep & H).
  apply bind_Ok in H as ([st2 its1] & db2 & Hscan & H).
  inversion H; subst; clear H. cbn [fst snd] in *.
  exists st1, it, db1, its1. auto.
Qed.

Lemma locate_scan_nil st db st' its db' :
  locate_scan E self st [] db = Ok ((st', its), db') ->
  st' = st /\ its = [] /\ db' = db.
Proof. cbn. intros H. inversion H. auto. Qed.



(** The level after a scan, from any starting state. *)
Lemma locate_scan_level places : forall st db st' its db',
  locate_scan E self st places db = Ok ((st', its), db') ->
  (forall i it, its !! i = Some it ->
     Iter.level_before it =
     Scan.level st + Z.of_nat (length (List.filter Iter.isPrefix (take i its)))) /\
  Scan.level st' = Scan.level st + Z.of_nat (length (List.filter Iter.isPrefix its)).
Proof.
  induction places as [|place places IH]; intros st db st' its db' H.
  - apply locate_scan_nil in H as (-> & -> & _). split; [intros i it Hi; now destruct i|].
    cbn. lia.
  - apply locate_scan_cons in H as (st1 & it & db1 & its1 & Hstep & Hscan & ->).
    apply locate_step_Ok in Hstep as (_ & _ & _ & Hlb & _ & _ & _ & Hl & _).
    destruct (IH _ _ _ _ _ Hscan) as [IHi IHl]. split.
    + intros [|i] it' Hi.
      * cbn in Hi. inversion Hi; subst it'. cbn. lia.
      * cbn in Hi. rewrite (IHi _ _ Hi), Hl. cbn [take List.filter].
        destruct (Iter.isPrefix it); cbn [length]; lia.
    + rewrite IHl, Hl. cbn [List.filter].
      destruct (Iter.isPrefix it); cbn [length]; lia.
Qed.

End Step.

(** ** The token scan *)






(** C9: the level is never reset.  At the start of every iteration, and
    at the end of the scan, it is 1 plus the number of tokens so far that
    were classified as prefix continuations, whatever happened to the
    pending prefix; hence it never decreases. *)
Theorem level_counts_prefix_tokens E self places db st' its db' :
  locate_scan E self Scan.init places db = Ok ((st', its), db') ->
  (forall i it, its !! i = Some it ->
     Iter.level_before it =
     1 + Z.of_nat (length (List.filter Iter.isPrefix (take i its)))) /\
  Scan.level st' = 1 + Z.of_nat (length (List.filter Iter.isPrefix its)) /\
  (forall i j it1 it2, (i <= j)%nat -> its !! i = Some it1 -> its !! j = Some it2 ->
     Iter.level_before it1 <= Iter.level_before it2 <= Scan.level st').
Proof.
  intros H. destruct (locate_scan_level E self _ _ _ _ _ _ H) as [Hi Hl].
  cbn [Scan.init Scan.level] in Hi, Hl.
  split; [exact Hi|]. split; [exact Hl|].
  intros i j it1 it2 Hij H1 H2.
  rewrite (Hi _ _ H1), (Hi _ _ H2), Hl.
  assert (Hmono : forall (a b : nat) (l : list Iter.t), (a <= b)%nat ->
            (length (List.filter Iter.isPrefix (take a l))
             <= length (List.filter Iter.isPrefix (take b l)))%nat).
  { intros a b l Hab. revert a b Hab.
    induction l as [|x l IH]; intros a b Hab.
    - now rewrite !take_nil.
    - destruct a as [|a]; [cbn; lia|]. destruct b as [|b]; [lia|].
      cbn [take List.filter]. specialize (IH a b ltac:(lia)).
      destruct (Iter.isPrefix x); cbn [length]; lia. }
  pose proof (Hmono i j its Hij) as Hle1.
  pose proof (Hmono j (length its) its) as Hle2.
  rewrite firstn_all in Hle2.
  apply lookup_lt_Some in H2. lia.
Qed.

Lemma level_counts_prefix_tokens_witness :
  Scan.level (fst (fst san_xyz)) =
    1 + Z.of_nat (length (List.filter Iter.isPrefix (snd (fst san_xyz)))) /\
  Scan.level (fst (fst san_xyz)) = 2 /\
  Scan.prefix (fst (fst san_xyz)) = "".
Proof.
  split; [|split; vm_compute; reflexivity].
  apply (level_counts_prefix_tokens sample_env default_locator
           ["San"; "Xyz"] sample_store
           (fst (fst san_xyz)) (snd (fst san_xyz)) (snd san_xyz)).
  apply scan_of_Ok. vm_compute. reflexivity.
Defined.

(** ** Substring search *)

Lemma append_cons c (s t : string) : String c s +:+ t = String c (s +:+ t).
Proof. reflexivity. Qed.

Lemma append_nil_l (t : string) : "" +:+ t = t.
Proof. reflexivity. Qed.

Lemma append_nil_r (s : string) : s +:+ "" = s.
Proof. induction s as [|c s IH]; [reflexivity|]. now rewrite append_cons, IH. Qed.

Lemma append_same_length (a b c d : string) :
  a +:+ b = c +:+ d -> String.length a = String.length c -> b = d.
Proof.
  revert c. induction a as [|x a IH]; intros [|y c] H Hl; try discriminate.
  - exact H.
  - rewrite !append_cons in H. injection H as _ H. injection Hl as Hl. eauto.
Qed.

Lemma prefix_spec (n h : string) :
  String.prefix n h = true <-> exists post, h = n +:+ post.
Proof.
  revert h. induction n as [|c n IH]; intros h; simpl.
  - split; [intros _; now exists h | now destruct h].
  - destruct h as [|d h]; simpl.
    + split; [discriminate | intros [post H]; discriminate].
    + destruct (Ascii.ascii_dec c d) as [->|Hne].
      * rewrite IH. split; intros [post H]; exists post;
          rewrite ?append_cons in *; congruence.
      * split; [discriminate | intros [post H]; rewrite append_cons in H; congruence].
Qed.

Lemma str_contains_spec (n h : string) :
  str_contains n h = true <-> is_substring n h.
Proof.
  unfold is_substring. induction h as [|d h IH]; cbn [str_contains].
  - rewrite orb_false_r, prefix_spec. split.
    + intros [post H]. exists "", post. exact H.
    + intros (pre & post & H). destruct pre; [eauto | discriminate].
  - rewrite orb_true_iff, prefix_spec, IH. split.
    + intros [[post H] | (pre & post & H)].
      * exists "", post. exact H.
      * exists (String d pre), post. rewrite append_cons. now rewrite H.
    + intros (pre & post & H). destruct pre as [|c pre].
      * left. exists post. exact H.
      * right. exists pre, post. rewrite append_cons in H. congruence.
Qed.

(** ** Misspelling correction *)

Lemma correct_rows_spec E rows name :
  Forall (fun row => (3 <= length row)%nat) rows ->
  (exists before row after canonical,
      rows = (before ++ row :: after)%list /\
      variant_contains E name row /\
      row !! 2%nat = Some canonical /\
      Forall (fun row' => ~ variant_contains E name row') before /\
      correct_country_misspelling_rows E rows name = Ok canonical)
  \/ (Forall (fun row' => ~ variant_contains E name row') rows /\
      correct_country_misspelling_rows E rows name = Ok name).
Proof.
  induction 1 as [|row rows Hrow Hrows IH]; cbn [correct_country_misspelling_rows].
  - right. split; [constructor | reflexivity].
  - destruct row as [|variant [|iso [|canonical rest]]]; cbn in Hrow; try lia.
    cbn [lookup list_lookup].
    destruct (str_contains name (remove_non_ascii E variant)) eqn:Hc.
    + left. exists [], (variant :: iso :: canonical :: rest), rows, canonical.
      repeat split; try constructor.
      exists variant. split; [reflexivity|]. now apply str_contains_spec.
    + assert (Hno : ~ variant_contains E name (variant :: iso :: canonical :: rest)).
      { intros (v & [= <-] & Hsub). apply str_contains_spec in Hsub. congruence. }
      destruct IH as [(before & row & after & c & -> & Hv & H2 & Hb & Hr) | [Hall Hr]].
      * left. exists ((variant :: iso :: canonical :: rest) :: before), row, after, c.
        repeat split; auto.
      * right. split; [constructor; auto | exact Hr].
Qed.

(** C3 (as amended): the rows of the table are scanned in order; the
    name is replaced by the canonical name (third column) of the first
    row whose ASCII-normalised variant (first column) contains the name
    as a substring, and is returned unchanged when no row does.
    [getCountry] looks up the corrected name when correction is enabled,
    and the name itself when it is not; an ISO-shaped name is looked up
    as a code without correction. *)
Theorem misspelling_correction_is_substring_substitution E self name :
  Forall (fun row => (3 <= length row)%nat) (ISO3166ErrorDictionary E) ->
  ((exists before row after canonical,
       ISO3166ErrorDictionary E = (before ++ row :: after)%list /\
       variant_contains E name row /\
       row !! 2%nat = Some canonical /\
       Forall (fun row' => ~ variant_contains E name row') before /\
       correct_country_misspelling E name = Ok canonical)
   \/ (Forall (fun row' => ~ variant_contains E name row') (ISO3166ErrorDictionary E) /\
       correct_country_misspelling E name = Ok name)) /\
  (exists corrected,
      correct_country_misspelling E name = Ok corrected /\
      getCountry E self name =
        Ok (option_map Country.fromPyCountry
              (if isISO name then pycountry_alpha_2 E name
               else if correctMisspelling self then pycountry_name E corrected
                    else pycountry_name E name))).
Proof.
  intros Hwf. pose proof (correct_rows_spec E _ name Hwf) as Hspec.
  split; [exact Hspec|].
  assert (Hok : exists corrected, correct_country_misspelling E name = Ok corrected).
  { destruct Hspec as [(_ & _ & _ & c & _ & _ & _ & _ & H) | [_ H]]; eauto. }
  destruct Hok as [corrected Hc]. exists corrected. split; [exact Hc|].
  unfold getCountry. destruct (isISO name); cbn [bindR].
  - now destruct (pycountry_alpha_2 E name).
  - destruct (correctMisspelling self).
    + rewrite Hc. cbn [bindR]. now destruct (pycountry_name E corrected).
    + cbn [bindR]. now destruct (pycountry_name E name).
Qed.

Lemma misspelling_correction_is_substring_substitution_witness :
  exists corrected,
    correct_country_misspelling sample_env "Niger" = Ok corrected /\
    getCountry sample_env correcting_locator "Niger" =
      Ok (option_map Country.fromPyCountry (pycountry_name sample_env corrected)).
Proof.
  destruct (misspelling_correction_is_substring_substitution
              sample_env correcting_locator "Niger") as [_ H].
  - repeat constructor.
  - exact H.
Defined.

(** C3, counterexample: the table has the variant "Nigerria" for
    "Nigeria".  The name "Niger" equals no variant, so a literal
    substitution leaves it unchanged; the program finds it inside
    "Nigerria" and replaces it by "Nigeria", and [getCountry] then
    resolves "Niger" to Nigeria. *)
Lemma substring_of_variant_is_substituted :
  literal_substitution sample_env "Niger" = "Niger" /\
  correct_country_misspelling sample_env "Niger" = Ok "Nigeria" /\
  getCountry sample_env correcting_locator "Niger" =
    Ok (Some {| Country.name := VStr "Nigeria"; Country.iso := VStr "NG" |}).
Proof. repeat split; vm_compute; reflexivity. Qed.

(** ** ISO codes *)

Lemma re_search_from_not_bos s :
  re_search_from iso_pattern false s = false.
Proof. induction s as [|c s IH]; cbn; [reflexivity | exact IH]. Qed.

Lemma at_dollar_spec s :
  at_dollar s = true <-> s = "" \/ s = String newline "".
Proof.
  destruct s as [|c [|d s]]; cbn.
  - split; auto.
  - destruct (Ascii.eqb_spec c newline) as [->|Hne].
    + split; auto.
    + split; [discriminate|]. intros [H|H]; [discriminate | congruence].
  - split; [discriminate|]. intros [H|H]; discriminate.
Qed.

Lemma take_class_spec ranges n s s' :
  take_class ranges n s = Some s' <->
  exists w, s = w +:+ s' /\ String.length w = n /\
            forallb (in_class ranges) (list_ascii_of_string w) = true.
Proof.
  revert s. induction n as [|n IH]; intros s; cbn [take_class].
  - split.
    + intros [= ->]. exists "". auto.
    + intros (w & -> & Hlen & _). destruct w; [reflexivity | discriminate].
  - destruct s as [|c s].
    + split; [discriminate|]. intros (w & Hs & Hlen & _).
      destruct w; discriminate.
    + destruct (in_class ranges c) eqn:Hc.
      * rewrite IH. split.
        -- intros (w & -> & Hlen & Hall). exists (String c w). cbn.
           rewrite Hc, Hall, Hlen. auto.
        -- intros (w & Hs & Hlen & Hall). destruct w as [|d w]; [discriminate|].
           rewrite append_cons in Hs. cbn in Hlen, Hall.
           injection Hs as <- ->. injection Hlen as Hlen.
           apply andb_true_iff in Hall as [_ Hall]. eauto.
      * split; [discriminate|]. intros (w & Hs & Hlen & Hall).
        destruct w as [|d w]; [discriminate|].
        rewrite append_cons in Hs. cbn in Hall.
        injection Hs as <- ->. rewrite Hc in Hall. discriminate.
Qed.

(** What [isISO] accepts: one to three characters of [0-9A-Z],
    optionally followed by one newline. *)
Lemma isISO_spec s :
  isISO s = true <->
  exists w, (s = w \/ s = w +:+ String newline "") /\
            (1 <= String.length w <= 3)%nat /\
            forallb iso_char (list_ascii_of_string w) = true.
Proof.
  unfold isISO, re_search.
  assert (Hhere : forall k,
    match take_class [("0"%char, "9"%char); ("A"%char, "Z"%char)] k s with
    | Some s' => at_dollar s' && true
    | None => false
    end = true <->
    exists w, (s = w \/ s = w +:+ String newline "") /\ String.length w = k /\
              forallb iso_char (list_ascii_of_string w) = true).
  { intros k. destruct (take_class _ k s) as [s'|] eqn:Ht.
    - apply take_class_spec in Ht as (w & -> & Hlen & Hall).
      rewrite andb_true_r, at_dollar_spec. split.
      + intros [-> | ->]; exists w; split; auto.
        left. apply append_nil_r.
      + intros (w' & Hs & Hlen' & Hall').
        destruct Hs as [Hs|Hs].
        * left. apply (append_same_length w s' w' ""); [|congruence].
          now rewrite append_nil_r.
        * right. apply (append_same_length w s' w' (String newline "")); congruence.
    - split; [discriminate|]. intros (w & Hs & Hlen & Hall).
      assert (Hsome : exists s', take_class [("0"%char, "9"%char); ("A"%char, "Z"%char)] k s = Some s').
      { destruct Hs as [->| ->].
        - exists "". apply take_class_spec. exists w. split; [|auto].
          now rewrite append_nil_r.
        - exists (String newline ""). apply take_class_spec. exists w. auto. }
      destruct Hsome as [s' Hs']. congruence. }
  destruct s as [|c s]; cbn -[take_class at_dollar].
  - split; [discriminate|].
    intros (w & [Hs|Hs] & Hlen & _); destruct w; cbn in *; try discriminate; lia.
  - rewrite re_search_from_not_bos, orb_false_r, !orb_true_iff.
    change (PeanoNat.Nat.eqb 3 0) with false. change (PeanoNat.Nat.eqb 2 0) with false.
    change (PeanoNat.Nat.eqb 1 0) with false.
    rewrite (Hhere 3%nat), (Hhere 2%nat), (Hhere 1%nat). split.
    + intros [(w & Hs & Hl & Ha) | [(w & Hs & Hl & Ha) | (w & Hs & Hl & Ha)]];
        exists w; (split; [exact Hs|]); (split; [lia | exact Ha]).
    + intros (w & Hs & Hl & Ha).
      assert (Hk : String.length w = 3%nat \/ String.length w = 2%nat \/ String.length w = 1%nat)
        by lia.
      destruct Hk as [Hk | [Hk | Hk]]; [left | right; left | right; right];
        exists w; auto.
Qed.

(** [getCountry] and [regions_for_name] take the code path exactly when
    [isISO] holds. *)
Lemma getCountry_route E self name :
  (isISO name = true ->
   getCountry E self name =
     Ok (option_map Country.fromPyCountry (pycountry_alpha_2 E name))) /\
  (isISO name = false -> correctMisspelling self = false ->
   getCountry E self name =
     Ok (option_map Country.fromPyCountry (pycountry_name E name))).
Proof.
  unfold getCountry. split.
  - intros ->. cbn. now destruct (pycountry_alpha_2 E name).
  - intros -> ->. cbn. now destruct (pycountry_name E name).
Qed.

Lemma regions_for_name_route E self region_name :
  regions_for_name E self region_name =
  bind (places_by_name E self region_name
          (if isISO region_name then "regionIsoCode" else "regionName"))
       (fun regionRecords => lift (mapR Region.fromGeoLite2 regionRecords)).
Proof. unfold regions_for_name. now destruct (isISO region_name). Qed.

(** C8, at the failing input: the three characters "US" and a newline
    are accepted by [isISO] although the newline is not in [0-9A-Z],
    because [$] also matches before a final newline; [getCountry] then
    looks the string up as a code. *)
Theorem isISO_accepts_trailing_newline :
  isISO us_newline = true /\
  String.length us_newline = 3%nat /\
  forallb iso_char (list_ascii_of_string us_newline) = false /\
  isISO "US" = true /\
  isISO "Singapore" = false /\
  forall E self,
    getCountry E self us_newline =
      Ok (option_map Country.fromPyCountry (pycountry_alpha_2 E us_newline)).
Proof.
  repeat (split; [reflexivity|]).
  intros E self. now apply getCountry_route.
Qed.

(** ** The store *)

Lemma query_view_Ok view db rows db' :
  query_view view db = Ok (rows, db') ->
  db' = db /\ view ∈ views db /\
  exists base cols rows0,
    view_source view = Some (base, cols) /\
    tables db !! base = Some rows0 /\
    rows = map (select_as cols) rows0.
Proof.
  unfold query_view. destruct (bool_decide (view ∈ views db)) eqn:Hv; [|discriminate].
  apply bool_decide_eq_true in Hv.
  destruct (view_source view) as [[base cols]|]; [|discriminate].
  destruct (tables db !! base) as [rows0|] eqn:Ht; [|discriminate].
  intros [= <- <-]. eauto 10.
Qed.

Lemma query_view_run view db base cols rows0 :
  view ∈ views db ->
  view_source view = Some (base, cols) ->
  tables db !! base = Some rows0 ->
  query_view view db = Ok (map (select_as cols) rows0, db).
Proof.
  intros Hv Hs Ht. unfold query_view.
  rewrite (bool_decide_eq_true_2 _ Hv), Hs, Ht. reflexivity.
Qed.

Lemma query_table_run name db rows :
  tables db !! name = Some rows -> query_table name db = Ok (rows, db).
Proof. intros H. unfold query_table. now rewrite H. Qed.

Lemma getView_source self :
  view_source (getView self) =
  Some (if useWikiData self then "City_wikidata" else "cities",
        if useWikiData self
        then [("name", "name"); ("regionName", "regionLabel");
              ("regionIsoCode", "regionIsoCode"); ("countryName", "countryLabel");
              ("countryIsoCode", "countryIsoCode"); ("population", "cityPopulation");
              ("gdp", "countryGDP_perCapita")]
        else [("name", "city_name"); ("regionName", "subdivision_1_name");
              ("regionIsoCode", "subdivision_1_iso_code");
              ("countryName", "country_name");
              ("countryIsoCode", "country_iso_code")]).
Proof. unfold getView. now destruct (useWikiData self). Qed.

(** *** Population *)

Section Populate.

Variable E : Env.
Variable self : Locator.

(** The statements run by [populate_db] once it has decided to
    populate. *)
Lemma populate_db_forced force db :
  negb (db_has_data self db) || force = true ->
  populate_db E self force db =
  bind (populate_Cities E)
    (fun _ =>
       bind (if useWikiData self
             then bind (populate_Countries E)
                    (fun _ => bind (populate_Regions E)
                       (fun _ => bind (populate_Cities_FromWikidata E)
                          (fun _ => create_view "WikidataCityLookup")))
             else ret tt)
         (fun _ => bind (populate_PrefixTree E self)
                     (fun _ => populate_PrefixAmbiguities self))) db.
Proof. intros H. unfold populate_db at 1. cbn [bind gets]. now rewrite H. Qed.

Lemma populate_db_noop db :
  db_has_data self db = true -> populate_db E self false db = Ok (tt, db).
Proof. intros H. unfold populate_db. cbn [bind gets]. now rewrite H. Qed.

Lemma populate_Cities_Ok db a db' :
  populate_Cities E db = Ok (a, db') ->
  ingestions db' = S (ingestions db) /\
  "GeoLite2CityLookup" ∈ views db' /\
  tables db' = <["cities" := getGeolite2Cities E]> (tables db).
Proof.
  unfold populate_Cities. cbn. intros [= <- <-]. cbn.
  repeat split. set_solver.
Qed.

Lemma populate_Cities_total db : exists db', populate_Cities E db = Ok (tt, db').
Proof. eexists. reflexivity. Qed.

(** The Wikidata part of the population. *)
Lemma wikidata_part_Ok db a db' :
  (if useWikiData self
   then bind (populate_Countries E)
          (fun _ => bind (populate_Regions E)
             (fun _ => bind (populate_Cities_FromWikidata E)
                (fun _ => create_view "WikidataCityLookup")))
   else ret tt) db = Ok (a, db') ->
  ingestions db' = ingestions db /\
  (forall v, v ∈ views db -> v ∈ views db') /\
  (forall t, is_Some (tables db !! t) -> is_Some (tables db' !! t)) /\
  (useWikiData self = true ->
   "WikidataCityLookup" ∈ views db' /\
   (is_Some (City_wikidata_db E !! "City_wikidata") ->
    is_Some (tables db' !! "City_wikidata"))).
Proof.
  destruct (useWikiData self).
  - cbn. intros [= <- <-]. cbn. split; [reflexivity|]. split; [set_solver|].
    split.
    + intros t Ht. apply lookup_union_is_Some. right.
      destruct (decide (t = "regions")) as [->|Hr];
        [rewrite lookup_insert_eq; eauto|rewrite lookup_insert_ne by congruence].
      destruct (decide (t = "countries")) as [->|Hc];
        [rewrite lookup_insert_eq; eauto|rewrite lookup_insert_ne by congruence].
      exact Ht.
    + intros _. split; [set_solver|]. intros Hs.
      apply lookup_union_is_Some. now left.
  - cbn. intros [= <- <-]. split; [reflexivity|]. split; [auto|]. split; [auto|].
    discriminate.
Qed.

Lemma wikidata_part_total db :
  exists db',
    (if useWikiData self
     then bind (populate_Countries E)
            (fun _ => bind (populate_Regions E)
               (fun _ => bind (populate_Cities_FromWikidata E)
                  (fun _ => create_view "WikidataCityLookup")))
     else ret tt) db = Ok (tt, db').
Proof. destruct (useWikiData self); eexists; reflexivity. Qed.

Lemma populate_PrefixTree_Ok db a db' :
  populate_PrefixTree E self db = Ok (a, db') ->
  ingestions db' = ingestions db /\ views db' = views db /\
  exists rows, tables db' = <["prefixes" := rows]> (tables db).
Proof.
  unfold populate_PrefixTree. intros H.
  apply bind_Ok in H as (recs & db1 & Hq & H).
  apply query_view_Ok in Hq as (-> & _). cbn in H. injection H as <- <-.
  cbn. eauto.
Qed.

Lemma populate_PrefixTree_total db :
  getView self ∈ views db ->
  is_Some (tables db !! (if useWikiData self then "City_wikidata" else "cities")) ->
  exists db', populate_PrefixTree E self db = Ok (tt, db').
Proof.
  intros Hv [rows0 Ht]. unfold populate_PrefixTree.
  run_bind (query_view_run _ _ _ _ _ Hv (getView_source self) Ht).
  eexists. reflexivity.
Qed.

Lemma populate_PrefixAmbiguities_Ok db a db' :
  populate_PrefixAmbiguities self db = Ok (a, db') ->
  ingestions db' = ingestions db /\ views db' = views db /\
  exists rows, tables db' = <["ambiguous" := rows]> (tables db).
Proof.
  unfold populate_PrefixAmbiguities. intros H.
  apply bind_Ok in H as (recs & db1 & Hq & H).
  apply query_view_Ok in Hq as (-> & _).
  apply bind_Ok in H as (p & db2 & Hp & H).
  apply query_table_Ok in Hp as (-> & _). cbn in H. injection H as <- <-.
  cbn. eauto.
Qed.

Lemma populate_PrefixAmbiguities_total db :
  getView self ∈ views db ->
  is_Some (tables db !! (if useWikiData self then "City_wikidata" else "cities")) ->
  is_Some (tables db !! "prefixes") ->
  exists db', populate_PrefixAmbiguities self db = Ok (tt, db').
Proof.
  intros Hv [rows0 Ht] [p Hp]. unfold populate_PrefixAmbiguities.
  run_bind (query_view_run _ _ _ _ _ Hv (getView_source self) Ht).
  run_bind (query_table_run _ _ _ Hp).
  eexists. reflexivity.
Qed.


(** With its sources available, a population completes and leaves the
    store ready. *)
Lemma populate_db_forced_total force db :
  source_available E self ->
  negb (db_has_data self db) || force = true ->
  exists db', populate_db E self force db = Ok (tt, db') /\ store_ready self db'.
Proof.
  intros Hsrc Hf. rewrite (populate_db_forced _ _ Hf).
  destruct (populate_Cities_total db) as [db1 H1].
  destruct (wikidata_part_total db1) as [db2 H2].
  pose proof (populate_Cities_Ok _ _ _ H1) as (_ & Hv1 & Ht1).
  pose proof (wikidata_part_Ok _ _ _ H2) as (_ & Hv2 & Ht2 & Hw2).
  assert (Hview : getView self ∈ views db2).
  { unfold getView. destruct (useWikiData self); [now apply Hw2 | now apply Hv2]. }
  assert (Hbase : is_Some (tables db2 !!
                     (if useWikiData self then "City_wikidata" else "cities"))).
  { destruct (useWikiData self) eqn:Hw.
    - apply Hw2; [reflexivity|]. apply Hsrc. exact Hw.
    - apply Ht2. rewrite Ht1, lookup_insert_eq. eauto. }
  destruct (populate_PrefixTree_total db2 Hview Hbase) as [db3 H3].
  pose proof (populate_PrefixTree_Ok _ _ _ H3) as (_ & Hv3 & rows3 & Ht3).
  assert (Hbase3 : is_Some (tables db3 !!
                      (if useWikiData self then "City_wikidata" else "cities"))).
  { rewrite Ht3. destruct (useWikiData self);
      rewrite lookup_insert_ne by discriminate; exact Hbase. }
  assert (Hview3 : getView self ∈ views db3) by (rewrite Hv3; exact Hview).
  assert (Hp3 : is_Some (tables db3 !! "prefixes"))
    by (rewrite Ht3, lookup_insert_eq; eauto).
  destruct (populate_PrefixAmbiguities_total db3 Hview3 Hbase3 Hp3) as [db4 H4].
  pose proof (populate_PrefixAmbiguities_Ok _ _ _ H4) as (_ & Hv4 & rows4 & Ht4).
  exists db4. split.
  - rewrite (bind_run _ _ _ _ _ H1), (bind_run _ _ _ _ _ H2), (bind_run _ _ _ _ _ H3).
    exact H4.
  - unfold store_ready. rewrite Ht4, Hv4. repeat split.
    + rewrite lookup_insert_ne by discriminate. exact Hp3.
    + rewrite lookup_insert_eq. eauto.
    + exact Hview3.
    + destruct (useWikiData self); rewrite lookup_insert_ne by discriminate;
        exact Hbase3.
Qed.



End Populate.


(** ** Candidate lookup *)

Lemma gets_run {A : Type} (f : Store -> A) db : gets f db = Ok (f db, db).
Proof. reflexivity. Qed.

Lemma mapR_Ok {A B : Type} (f : A -> result B) (l : list A) (ys : list B) :
  mapR f l = Ok ys -> Forall2 (fun x y => f x = Ok y) l ys.
Proof.
  revert ys. induction l as [|x l IH]; intros ys; cbn [mapR].
  - intros [= <-]. constructor.
  - intros H. apply bindR_Ok in H as (y & Hy & H).
    apply bindR_Ok in H as (ys' & Hys & H). injection H as <-.
    constructor; auto.
Qed.

Lemma mapR_total {A B : Type} (f : A -> result B) (l : list A) :
  Forall (fun x => exists y, f x = Ok y) l -> exists ys, mapR f l = Ok ys.
Proof.
  induction 1 as [|x l [y Hy] _ [ys Hys]]; cbn [mapR].
  - eauto.
  - rewrite Hy. cbn [bindR]. rewrite Hys. cbn [bindR]. eauto.
Qed.

(** The rows of either lookup view have the five columns the data
    classes read. *)
Lemma view_row_columns self record :
  view_row self record ->
  is_Some (record !! "name") /\
  is_Some (record !! "regionName") /\
  is_Some (record !! "regionIsoCode") /\
  is_Some (record !! "countryName") /\
  is_Some (record !! "countryIsoCode").
Proof.
  intros (base & cols & r & Hs & ->). rewrite getView_source in Hs.
  destruct (useWikiData self); injection Hs as <- <-;
    repeat split; eexists; reflexivity.
Qed.


Lemma Region_fromGeoLite2_total record :
  is_Some (record !! "regionName") ->
  is_Some (record !! "regionIsoCode") ->
  exists region, Region.fromGeoLite2 record = Ok region.
Proof.
  intros [n Hn] [i Hi]. unfold Region.fromGeoLite2, getitem.
  rewrite Hn, Hi. cbn. eauto.
Qed.

Lemma Country_fromGeoLite2_total record :
  is_Some (record !! "countryName") ->
  is_Some (record !! "countryIsoCode") ->
  exists country, Country.fromGeoLite2 record = Ok country.
Proof.
  intros [n Hn] [i Hi]. unfold Country.fromGeoLite2, getitem.
  rewrite Hn, Hi. cbn. eauto.
Qed.

(** What [City.fromGeoLite2] builds from a record. *)
Lemma City_fromGeoLite2_Ok record city :
  City.fromGeoLite2 record = Ok city ->
  record !! "name" = Some (City.name city) /\
  City.population city = match record !! "population" with
                         | Some v => v
                         | None => VNone
                         end /\
  City.gdp city = match record !! "gdp" with
                  | Some v => v
                  | None => VNone
                  end /\
  Region.fromGeoLite2 record = Ok (City.region city) /\
  Country.fromGeoLite2 record = Ok (City.country city).
Proof.
  unfold City.fromGeoLite2. intros H.
  apply bindR_Ok in H as (name & Hn & H).
  apply bindR_Ok in H as (region & Hr & H).
  apply bindR_Ok in H as (country & Hc & H).
  injection H as <-. cbn.
  unfold getitem in Hn. destruct (record !! "name"); [|discriminate].
  injection Hn as ->. auto.
Qed.

Lemma City_fromGeoLite2_total self record :
  view_row self record -> exists city, City.fromGeoLite2 record = Ok city.
Proof.
  intros Hrow. destruct (view_row_columns _ _ Hrow) as ([n Hn] & Hrn & Hri & Hcn & Hci).
  destruct (Region_fromGeoLite2_total _ Hrn Hri) as [region Hr].
  destruct (Country_fromGeoLite2_total _ Hcn Hci) as [country Hc].
  unfold City.fromGeoLite2, getitem. rewrite Hn, Hr, Hc. cbn [bindR]. eauto.
Qed.

Section Lookup.

Variable E : Env.
Variable self : Locator.

Lemma places_by_name_Ok placeName columnName db rows db' :
  places_by_name E self placeName columnName db = Ok (rows, db') ->
  Forall (view_row self) rows.
Proof.
  unfold places_by_name. intros H.
  apply bind_Ok in H as (has & db1 & _ & H).
  apply bind_Ok in H as (? & db2 & _ & H).
  apply bind_Ok in H as (rows1 & db3 & Hq & H).
  apply query_view_Ok in Hq as (-> & _ & base & cols & rows0 & Hs & _ & ->).
  injection H as <- <-.
  apply Forall_forall. intros record Hin.
  apply list_elem_of_In, filter_In in Hin as [Hin _].
  apply in_map_iff in Hin as (r & <- & _). exists base, cols, r. auto.
Qed.

Lemma places_by_name_total placeName columnName db :
  source_available E self ->
  store_ready self db ->
  exists rows db',
    places_by_name E self placeName columnName db = Ok (rows, db') /\
    store_ready self db'.
Proof.
  intros Hsrc Hready. unfold places_by_name.
  run_bind (gets_run _ db).
  assert (Hpop : exists db1,
             (if negb (db_has_data self db) then populate_db E self false else ret tt) db
             = Ok (tt, db1) /\ store_ready self db1).
  { destruct (db_has_data self db) eqn:Hd; cbn [negb].
    - exists db. auto.
    - apply populate_db_forced_total; [exact Hsrc | now rewrite Hd]. }
  destruct Hpop as (db1 & Hpop & Hready1).
  run_bind Hpop.
  destruct Hready1 as (Hp & Ha & Hv & [rows0 Ht]).
  run_bind (query_view_run _ _ _ _ _ Hv (getView_source self) Ht).
  eexists _, db1. split; [reflexivity|].
  unfold store_ready. eauto.
Qed.


Lemma cities_for_name_total cityName db :
  source_available E self ->
  store_ready self db ->
  exists cities db',
    cities_for_name E self cityName db = Ok (cities, db') /\ store_ready self db'.
Proof.
  intros Hsrc Hready. unfold cities_for_name.
  destruct (places_by_name_total cityName "name" db Hsrc Hready)
    as (records & db1 & Hp & Hready1).
  run_bind Hp.
  destruct (mapR_total City.fromGeoLite2 records) as [cities Hm].
  { eapply Forall_impl; [eapply places_by_name_Ok; exact Hp|].
    intros record. apply City_fromGeoLite2_total. }
  exists cities, db1. unfold lift. now rewrite Hm.
Qed.

Lemma regions_for_name_total region_name db :
  source_available E self ->
  store_ready self db ->
  exists regions db',
    regions_for_name E self region_name db = Ok (regions, db') /\
    store_ready self db'.
Proof.
  intros Hsrc Hready. rewrite regions_for_name_route.
  destruct (places_by_name_total region_name
              (if isISO region_name then "regionIsoCode" else "regionName")
              db Hsrc Hready) as (records & db1 & Hp & Hready1).
  run_bind Hp.
  destruct (mapR_total Region.fromGeoLite2 records) as [regions Hm].
  { eapply Forall_impl; [eapply places_by_name_Ok; exact Hp|].
    intros record Hrow.
    destruct (view_row_columns _ _ Hrow) as (_ & Hrn & Hri & _).
    now apply Region_fromGeoLite2_total. }
  exists regions, db1. unfold lift. now rewrite Hm.
Qed.

Lemma getCountry_total name :
  (correctMisspelling self = true -> dictionary_well_formed E) ->
  exists country, getCountry E self name = Ok country.
Proof.
  intros Hwf. unfold getCountry. destruct (isISO name); cbn [bindR]; [eauto|].
  destruct (correctMisspelling self); cbn [bindR]; [|eauto].
  destruct (correct_rows_spec E _ name (Hwf eq_refl))
    as [(_ & _ & _ & c & _ & _ & _ & _ & H) | [_ H]];
    unfold correct_country_misspelling; rewrite H; cbn [bindR]; eauto.
Qed.

(** *** The scan completes and keeps the store ready *)

Lemma isPrefix_total name level db :
  store_ready self db -> exists b, isPrefix name level db = Ok (b, db).
Proof.
  intros ([rows Hp] & _). unfold isPrefix.
  run_bind (query_table_run _ _ _ Hp). eexists. reflexivity.
Qed.

Lemma isAmbiguousPrefix_total name db :
  store_ready self db -> exists b, isAmbiguousPrefix name db = Ok (b, db).
Proof.
  intros (_ & [rows Ha] & _). unfold isAmbiguousPrefix.
  run_bind (query_table_run _ _ _ Ha). eexists. reflexivity.
Qed.

Hypothesis Hsrc : source_available E self.
Hypothesis Hdict : correctMisspelling self = true -> dictionary_well_formed E.

Lemma lookups_total st checkPlace level prefix it db :
  store_ready self db ->
  exists r db',
    bind (lift (getCountry E self checkPlace))
      (fun foundCountry =>
         bind (cities_for_name E self checkPlace)
           (fun foundCities =>
              bind (regions_for_name E self checkPlace)
                (fun foundRegions =>
                   ret ({| Scan.country := match foundCountry with
                                           | Some foundCountry => Some foundCountry
                                           | None => Scan.country st
                                           end;
                           Scan.cities := (Scan.cities st ++ foundCities)%list;
                           Scan.regions := (Scan.regions st ++ foundRegions)%list;
                           Scan.level := level;
                           Scan.prefix := prefix |},
                        it (Some (foundCountry, foundCities, foundRegions)))))) db
    = Ok ((r : Scan.state * Iter.t), db') /\ store_ready self db'.
Proof.
  intros Hready.
  destruct (getCountry_total checkPlace Hdict) as [fc Hc].
  destruct (cities_for_name_total checkPlace db Hsrc Hready) as (fcs & db1 & Hcs & Hr1).
  destruct (regions_for_name_total checkPlace db1 Hsrc Hr1) as (frs & db2 & Hrs & Hr2).
  eexists _, db2. split; [|exact Hr2].
  unfold bind at 1. unfold lift. rewrite Hc.
  rewrite (bind_run _ _ _ _ _ Hcs), (bind_run _ _ _ _ _ Hrs). reflexivity.
Qed.

Lemma locate_step_total st place db :
  store_ready self db ->
  exists st' it db',
    locate_step E self st place db = Ok ((st', it), db') /\ store_ready self db'.
Proof.
  intros Hready. unfold locate_step.
  run_bind (gets_run _ db).
  destruct (isPrefix_total (Scan.prefix st +:+ place) (Scan.level st) db Hready)
    as [p Hp].
  run_bind Hp.
  destruct p; cbn [negb].
  - destruct (isAmbiguousPrefix_total (Scan.prefix st +:+ place) db Hready) as [a Ha].
    unfold bind at 1. run_bind Ha.
    cbn [ret fst snd orb]. destruct a.
    + edestruct lookups_total as ([st' it] & db' & H & Hr); [exact Hready|].
      exists st', it, db'. split; [exact H | exact Hr].
    + eexists _, _, db. split; [reflexivity | exact Hready].
  - cbn [bind ret fst snd orb].
    edestruct lookups_total as ([st' it] & db' & H & Hr); [exact Hready|].
    exists st', it, db'. split; [exact H | exact Hr].
Qed.

Lemma locate_scan_total places : forall st db,
  store_ready self db ->
  exists st' its db',
    locate_scan E self st places db = Ok ((st', its), db') /\ store_ready self db'.
Proof.
  induction places as [|place places IH]; intros st db Hready.
  - exists st, [], db. auto.
  - destruct (locate_step_total st place db Hready) as (st1 & it & db1 & Hstep & Hr1).
    destruct (IH st1 db1 Hr1) as (st' & its & db' & Hscan & Hr').
    exists st', (it :: its), db'. split; [|exact Hr'].
    cbn [locate_scan]. rewrite (bind_run _ _ _ _ _ Hstep), (bind_run _ _ _ _ _ Hscan).
    reflexivity.
Qed.

End Lookup.

(** *** The accumulated cities come from the lookup view *)


Lemma first_city_In test cities foundCity city :
  first_city test cities foundCity = Some city ->
  city ∈ cities \/ foundCity = Some city.
Proof.
  unfold first_city. destruct (List.find test cities) as [c|] eqn:Hf.
  - intros [= <-]. left. apply find_some in Hf as [Hin _]. now apply list_elem_of_In.
  - auto.
Qed.

Lemma region_loop_In regions cities : forall foundCity city,
  region_loop regions cities foundCity = Some city ->
  city ∈ cities \/ foundCity = Some city.
Proof.
  induction regions as [|region regions IH]; intros foundCity city; cbn [region_loop].
  - auto.
  - destruct (first_city (in_region region) cities foundCity) as [c|] eqn:Hf.
    + intros [= <-]. eapply first_city_In; exact Hf.
    + intros H. apply IH in H as [H|H]; [auto | discriminate].
Qed.


Lemma disambiguate_nil country regions : disambiguate country regions [] = None.
Proof. reflexivity. Qed.

(** ** [locate] *)

Lemma locate_Ok E self places db r db' :
  locate E self places db = Ok (r, db') ->
  exists db1 st its,
    populate_db E self false db = Ok (tt, db1) /\
    locate_scan E self Scan.init places db1 = Ok ((st, its), db') /\
    r = disambiguate (Scan.country st) (Scan.regions st) (Scan.cities st).
Proof.
  unfold locate. intros H.
  apply bind_Ok in H as ([] & db1 & Hpop & H).
  apply bind_Ok in H as ([st its] & db2 & Hscan & H).
  injection H as <- <-. eauto 10.
Qed.






(** ** The health check after a population *)

Lemma db_recordCount_present db name rows :
  tables db !! name = Some rows ->
  db_recordCount (getTableList db) name db = Z.of_nat (length rows).
Proof.
  intros H. unfold db_recordCount, getTableList. rewrite H.
  assert (Hex : existsb (String.eqb name) (map fst (map_to_list (tables db))) = true).
  { apply existsb_exists. exists name. split; [|apply String.eqb_refl].
    apply in_map_iff. exists (name, rows). split; [reflexivity|].
    apply list_elem_of_In, elem_of_map_to_list. exact H. }
  now rewrite Hex.
Qed.


(** With a bulk file under the threshold the health check keeps failing,
    and a second [populate_db()] loads the bulk data again. *)
Example populate_db_small_file_loads_again :
  ingestions sample_store = 1%nat /\
  db_has_data default_locator sample_store = false /\
  ingestions (final_store empty_store
                (populate_db sample_env default_locator false sample_store)) = 2%nat.
Proof. repeat split; vm_compute; reflexivity. Qed.

(** * Further properties *)

(** ** The tie-break policy, completed *)

Lemma first_city_None test cities :
  first_city test cities None = None <-> Forall (fun city => test city = false) cities.
Proof.
  unfold first_city. destruct (List.find test cities) as [c|] eqn:Hf.
  - split; [discriminate|]. intros Hall. apply find_none_Forall in Hall. congruence.
  - split; [intros _; now apply find_none_Forall | reflexivity].
Qed.

Lemma region_loop_None regions cities :
  region_loop regions cities None = None <->
  Forall (fun region => Forall (fun city => in_region region city = false) cities) regions.
Proof.
  induction regions as [|region regions IH]; cbn [region_loop].
  - split; [constructor | reflexivity].
  - destruct (first_city (in_region region) cities None) as [c|] eqn:Hf.
    + split; [discriminate|]. intros Hall. inversion Hall as [|? ? Hr _]; subst.
      apply first_city_None in Hr. congruence.
    + apply first_city_None in Hf. rewrite IH. split.
      * intros Hall. now constructor.
      * intros Hall. now inversion Hall.
Qed.

(** The region loop, started without a city: the regions are tried in
    order, and the first one that some city satisfies decides. *)
Lemma region_loop_first before region after cities city :
  Forall (fun r => Forall (fun c => in_region r c = false) cities) before ->
  List.find (in_region region) cities = Some city ->
  region_loop (before ++ region :: after) cities None = Some city.
Proof.
  intros Hbefore Hfind. induction Hbefore as [|r before Hr _ IH]; cbn [app region_loop].
  - unfold first_city. now rewrite Hfind.
  - apply first_city_None in Hr. rewrite Hr. exact IH.
Qed.

(** [disambiguate] never makes up a city: what it returns is one of the
    candidates it was given. *)
Theorem disambiguate_returns_a_candidate country regions cities :
  match disambiguate country regions cities with
  | Some city => city ∈ cities
  | None => True
  end.
Proof.
  destruct (disambiguate country regions cities) as [city|] eqn:Hd; [|exact I].
  unfold disambiguate in Hd. destruct (Nat.eqb (length cities) 1).
  - destruct cities as [|c cities]; [discriminate|]. injection Hd as <-.
    apply list_elem_of_here.
  - destruct (Nat.ltb 1 (length cities)); cbn [andb] in Hd.
    + assert (Hc : forall found,
                 match country with
                 | Some c => first_city (same_country c) cities None
                 | None => None
                 end = Some found -> found ∈ cities).
      { intros found. destruct country as [c|]; [|discriminate].
        intros H. apply first_city_In in H as [H|H]; [exact H | discriminate]. }
      destruct (Nat.ltb 0 (length regions)).
      * apply region_loop_In in Hd as [Hd|Hd]; [exact Hd | now apply Hc].
      * now apply Hc.
    + now destruct country.
Qed.

(** With no city, or with several, [disambiguate] gives up exactly when
    no city is in the resolved country and no city satisfies the region
    rule for any of the regions. *)
Theorem disambiguate_None_iff country regions cities :
  length cities <> 1%nat ->
  (disambiguate country regions cities = None <->
   (length cities = 0%nat \/
    ((forall c city, country = Some c -> city ∈ cities ->
        Country.iso (City.country city) <> Country.iso c) /\
     (forall region city, region ∈ regions -> city ∈ cities ->
        Region.iso (City.region city) = Region.iso region ->
        Region.name (City.region city) = City.name city)))).
Proof.
  intros Hlen. unfold disambiguate.
  destruct (Nat.eqb_spec (length cities) 1) as [|_]; [contradiction|].
  destruct (Nat.ltb_spec 1 (length cities)) as [Hgt|Hle]; cbn [andb].
  - assert (Hcountry :
      match country with
      | Some c => first_city (same_country c) cities None
      | None => None
      end = None <->
      (forall c city, country = Some c -> city ∈ cities ->
         Country.iso (City.country city) <> Country.iso c)).
    { destruct country as [c0|].
      - rewrite first_city_None, Forall_forall. split.
        + intros H c city [= <-] Hin. specialize (H city Hin).
          unfold same_country in H. now apply bool_decide_eq_false in H.
        + intros H city Hin. unfold same_country. apply bool_decide_eq_false.
          now apply (H c0).
      - split; [discriminate | reflexivity]. }
    assert (Hregion :
      Forall (fun region => Forall (fun city => in_region region city = false) cities) regions
      <-> (forall region city, region ∈ regions -> city ∈ cities ->
             Region.iso (City.region city) = Region.iso region ->
             Region.name (City.region city) = City.name city)).
    { rewrite Forall_forall. split.
      - intros H region city Hr Hc Hiso. specialize (H region Hr).
        rewrite Forall_forall in H. specialize (H city Hc). unfold in_region in H.
        rewrite (bool_decide_eq_true_2 _ Hiso) in H. cbn in H.
        apply negb_false_iff, bool_decide_eq_true in H. exact H.
      - intros H region Hr. apply Forall_forall. intros city Hc. unfold in_region.
        destruct (bool_decide (Region.iso (City.region city) = Region.iso region)) eqn:Hb;
          [|reflexivity].
        apply bool_decide_eq_true in Hb. cbn. apply negb_false_iff, bool_decide_eq_true.
        now apply (H region). }
    set (found := match country with
                  | Some c => first_city (same_country c) cities None
                  | None => None
                  end) in *.
    destruct (Nat.ltb_spec 0 (length regions)) as [Hr|Hr].
    + destruct found as [c|] eqn:Hf.
      * split.
        -- intros H. destruct regions as [|region regions]; [cbn in Hr; lia|].
           cbn [region_loop] in H. unfold first_city in H.
           destruct (List.find (in_region region) cities); discriminate.
        -- intros [H0|[H1 _]]; [lia|]. apply Hcountry in H1. discriminate.
      * rewrite region_loop_None, Hregion. split.
        -- intros H. right. split; [now apply Hcountry | exact H].
        -- intros [H0|[_ H]]; [lia | exact H].
    + assert (regions = []) as -> by (destruct regions; [reflexivity | cbn in Hr; lia]).
      rewrite Hcountry. split.
      * intros H. right. split; [exact H|]. intros region city Hin.
        now apply elem_of_nil in Hin.
      * intros [H0|[H _]]; [lia | exact H].
  - assert (Hnil : cities = []).
    { destruct cities as [|c [|c' cities]]; [reflexivity | cbn in Hlen; lia | cbn in Hle; lia]. }
    subst cities. split; [intros _; now left|]. intros _. now destruct country.
Qed.

Lemma disambiguate_None_iff_witness :
  disambiguate None [texas] [paris_fr; vienna] = None.
Proof.
  apply (disambiguate_None_iff None [texas] [paris_fr; vienna]); [cbn; lia|].
  right. split; [intros c city H; discriminate H|].
  intros region city Hr Hc Hiso.
  apply list_elem_of_In in Hr. apply list_elem_of_In in Hc.
  destruct Hr as [<-|[]]. destruct Hc as [<-|[<-|[]]]; cbn in Hiso; discriminate Hiso.
Defined.

(** When the country rule finds nothing, the regions decide in the
    order they were found: the result is the first city, in scan order,
    that satisfies the rule for the first region some city satisfies. *)
Theorem disambiguate_region_order country before region after cities city :
  (1 < length cities)%nat ->
  (forall c, country = Some c ->
     Forall (fun city => Country.iso (City.country city) <> Country.iso c) cities) ->
  Forall (fun r => Forall (fun c => in_region r c = false) cities) before ->
  List.find (in_region region) cities = Some city ->
  disambiguate country (before ++ region :: after) cities = Some city.
Proof.
  intros Hlen Hcountry Hbefore Hfind. unfold disambiguate.
  destruct (Nat.eqb_spec (length cities) 1) as [|_]; [lia|].
  destruct (Nat.ltb_spec 1 (length cities)) as [_|]; [|lia].
  assert (Hnone : match country with
                  | Some c => first_city (same_country c) cities None
                  | None => None
                  end = None).
  { destruct country as [c|]; [|reflexivity]. apply first_city_None.
    eapply Forall_impl; [exact (Hcountry c eq_refl)|]. intros x Hx.
    unfold same_country. now apply bool_decide_eq_false. }
  rewrite Hnone.
  assert (Hr : Nat.ltb 0 (length (before ++ region :: after)) = true).
  { apply Nat.ltb_lt. rewrite length_app. cbn. lia. }
  rewrite Hr. cbn [andb]. now apply region_loop_first.
Qed.

Lemma disambiguate_region_order_witness :
  disambiguate (Some france) [{| Region.name := VStr "Vienna"; Region.iso := VStr "9" |}; texas]
    [vienna; paris_tx; paris_tx] = Some paris_tx.
Proof.
  apply (disambiguate_region_order (Some france)
           [{| Region.name := VStr "Vienna"; Region.iso := VStr "9" |}] texas []
           [vienna; paris_tx; paris_tx] paris_tx).
  - cbn. lia.
  - intros c [= <-]. repeat constructor; discriminate.
  - repeat constructor.
  - reflexivity.
Defined.

(** ** Building the data classes from a record *)

(** [Region.fromGeoLite2] reads [regionName], then [regionIsoCode]; the
    first one the record lacks is the [KeyError] it raises. *)
Lemma Region_fromGeoLite2_cases record :
  Region.fromGeoLite2 record =
  match record !! "regionName", record !! "regionIsoCode" with
  | None, _ => Raise (KeyError "regionName")
  | Some _, None => Raise (KeyError "regionIsoCode")
  | Some name, Some iso => Ok {| Region.name := name; Region.iso := iso |}
  end.
Proof.
  unfold Region.fromGeoLite2, getitem.
  destruct (record !! "regionName"); cbn; [|reflexivity].
  now destruct (record !! "regionIsoCode").
Qed.

Lemma Country_fromGeoLite2_cases record :
  Country.fromGeoLite2 record =
  match record !! "countryName", record !! "countryIsoCode" with
  | None, _ => Raise (KeyError "countryName")
  | Some _, None => Raise (KeyError "countryIsoCode")
  | Some name, Some iso => Ok {| Country.name := name; Country.iso := iso |}
  end.
Proof.
  unfold Country.fromGeoLite2, getitem.
  destruct (record !! "countryName"); cbn; [|reflexivity].
  now destruct (record !! "countryIsoCode").
Qed.

(** [City.fromGeoLite2] succeeds exactly on the records that have the
    five columns [name], [regionName], [regionIsoCode], [countryName] and
    [countryIsoCode]; otherwise it raises [KeyError] for the first of
    them, in this order, that is missing.  On success the city, its
    region and its country hold the record's values, and [population] and
    [gdp] hold the record's values or [None]. *)
Theorem City_fromGeoLite2_cases record :
  City.fromGeoLite2 record =
  match List.find (fun key => bool_decide (record !! key = None))
          ["name"; "regionName"; "regionIsoCode"; "countryName"; "countryIsoCode"] with
  | Some key => Raise (KeyError key)
  | None =>
      Ok {| City.name := column record "name";
            City.population := column record "population";
            City.gdp := column record "gdp";
            City.region := {| Region.name := column record "regionName";
                              Region.iso := column record "regionIsoCode" |};
            City.country := {| Country.name := column record "countryName";
                               Country.iso := column record "countryIsoCode" |} |}
  end.
Proof.
  unfold City.fromGeoLite2. rewrite Region_fromGeoLite2_cases, Country_fromGeoLite2_cases.
  unfold getitem, City.setValue, column. cbn [List.find].
  destruct (record !! "name") as [n|]; cbn; [|reflexivity].
  destruct (record !! "regionName") as [rn|]; cbn; [|reflexivity].
  destruct (record !! "regionIsoCode") as [ri|]; cbn; [|reflexivity].
  destruct (record !! "countryName") as [cn|]; cbn; [|reflexivity].
  destruct (record !! "countryIsoCode") as [ci|]; cbn; [|reflexivity].
  reflexivity.
Qed.

(** ** Misspelling correction: edge cases *)

Lemma str_contains_empty hay : str_contains "" hay = true.
Proof. destruct hay; reflexivity. Qed.

(** The empty name is contained in every variant: with a table whose
    first row has its three columns, the empty name is "corrected" to the
    canonical name of that row, and [getCountry] with correction enabled
    resolves the empty name to that country. *)
Theorem empty_name_takes_first_row E self row rows canonical :
  ISO3166ErrorDictionary E = row :: rows ->
  row !! 2%nat = Some canonical ->
  correct_country_misspelling E "" = Ok canonical /\
  (correctMisspelling self = true ->
   getCountry E self "" =
     Ok (option_map Country.fromPyCountry (pycountry_name E canonical))).
Proof.
  intros Htable Hrow.
  assert (Hc : correct_country_misspelling E "" = Ok canonical).
  { unfold correct_country_misspelling. rewrite Htable.
    cbn [correct_country_misspelling_rows].
    destruct row as [|variant [|iso [|c rest]]]; try discriminate.
    cbn [lookup list_lookup]. rewrite str_contains_empty.
    cbn in Hrow. now injection Hrow as ->. }
  split; [exact Hc|]. intros Hcorrect. unfold getCountry.
  change (isISO "") with false. cbv iota. rewrite Hcorrect, Hc. cbn [bindR].
  now destruct (pycountry_name E canonical).
Qed.

Lemma empty_name_takes_first_row_witness :
  correct_country_misspelling sample_env "" = Ok "Nigeria" /\
  (correctMisspelling correcting_locator = true ->
   getCountry sample_env correcting_locator "" =
     Ok (option_map Country.fromPyCountry (pycountry_name sample_env "Nigeria"))).
Proof.
  apply (empty_name_takes_first_row sample_env correcting_locator
           ["Nigerria"; "NG"; "Nigeria"] [] "Nigeria"); reflexivity.
Defined.

(** A row is read only as far as needed: of a row whose variant does not
    contain the name only the first column is read.  The correction raises
    [IndexError] when, after such rows, it meets a row without columns (a
    blank line of the file) or a row whose variant contains the name but
    which has no third column. *)
Theorem short_row_raises_IndexError E before row after name :
  Forall (fun r => r <> [] /\ ~ variant_contains E name r) before ->
  row = [] \/ (variant_contains E name row /\ (length row < 3)%nat) ->
  correct_country_misspelling_rows E (before ++ row :: after) name = Raise IndexError.
Proof.
  intros Hbefore Hrow.
  induction Hbefore as [|r before [Hne Hno] _ IH];
    cbn [app correct_country_misspelling_rows].
  - destruct Hrow as [->|[(variant & Hv & Hsub) Hlen]]; [reflexivity|].
    rewrite Hv. apply str_contains_spec in Hsub. rewrite Hsub.
    destruct (row !! 2%nat) as [c|] eqn:H2; [|reflexivity].
    apply lookup_lt_Some in H2. lia.
  - destruct r as [|variant r]; [contradiction|]. cbn [lookup list_lookup].
    destruct (str_contains name (remove_non_ascii E variant)) eqn:Hc; [|exact IH].
    exfalso. apply Hno. exists variant. split; [reflexivity|].
    now apply str_contains_spec.
Qed.

Lemma short_row_raises_IndexError_witness :
  correct_country_misspelling_rows sample_env
    ([["Nigerria"]] ++ [] :: [["Germny"; "DE"; "Germany"]]) "Germny" = Raise IndexError.
Proof.
  apply (short_row_raises_IndexError sample_env [["Nigerria"]] []
           [["Germny"; "DE"; "Germany"]] "Germny").
  - constructor; [|constructor]. split; [discriminate|].
    intros (variant & [= <-] & Hsub). apply str_contains_spec in Hsub.
    vm_compute in Hsub. discriminate Hsub.
  - now left.
Defined.

(** [getCountry] raises nothing but [IndexError], and only when
    correction is enabled, the name is not ISO-shaped and some row of the
    table lacks a column. *)
Theorem getCountry_raises_only_IndexError E self name e :
  getCountry E self name = Raise e ->
  e = IndexError /\ correctMisspelling self = true /\ isISO name = false /\
  ~ dictionary_well_formed E.
Proof.
  intros H.
  assert (Hrows : forall rows n e', correct_country_misspelling_rows E rows n = Raise e' ->
                                    e' = IndexError).
  { induction rows as [|row rows IH]; intros n e'; cbn [correct_country_misspelling_rows];
      [discriminate|].
    destruct (row !! 0%nat); [|now intros [= <-]].
    destruct (str_contains n (remove_non_ascii E s)); [|apply IH].
    destruct (row !! 2%nat); [discriminate | now intros [= <-]]. }
  unfold getCountry in H. destruct (isISO name) eqn:Hiso; cbn [bindR] in H.
  - destruct (pycountry_alpha_2 E name); discriminate.
  - destruct (correctMisspelling self) eqn:Hc; cbn [bindR] in H.
    + destruct (correct_country_misspelling E name) as [n|e'] eqn:Hn; cbn [bindR] in H.
      * destruct (pycountry_name E n); discriminate.
      * injection H as <-. split; [eapply Hrows; exact Hn|]. repeat split.
        intros Hwf. destruct (getCountry_total E self name (fun _ => Hwf)) as [c Hok].
        unfold getCountry in Hok. rewrite Hiso, Hc in Hok. cbn [bindR] in Hok.
        rewrite Hn in Hok. discriminate.
    + destruct (pycountry_name E name); discriminate.
Qed.

Lemma getCountry_raises_only_IndexError_witness :
  IndexError = IndexError /\ correctMisspelling correcting_locator = true /\
  isISO "Germny" = false /\
  ~ dictionary_well_formed
      {| pycountry_alpha_2 := pycountry_alpha_2 sample_env;
         pycountry_name := pycountry_name sample_env;
         remove_non_ascii := drop_non_ascii;
         ISO3166ErrorDictionary := [["Nigerria"]; []];
         GeoLite2_City_Locations := [];
         wikidata_countryList := [];
         wikidata_regionList := [];
         City_wikidata_db := ∅;
         PrefixTree_store := fun _ => [] |}.
Proof.
  apply (getCountry_raises_only_IndexError _ correcting_locator "Germny" IndexError).
  vm_compute. reflexivity.
Defined.

(** ** The store: counts, health check, population *)

(** [db_recordCount] on the list [getTableList] returns: the number of
    rows of the table, 0 for a table the store does not have. *)
Lemma db_recordCount_is_table_length db name :
  db_recordCount (getTableList db) name db =
  match tables db !! name with
  | Some rows => Z.of_nat (length rows)
  | None => 0
  end.
Proof.
  destruct (tables db !! name) as [rows|] eqn:Ht.
  - now apply db_recordCount_present.
  - unfold db_recordCount. rewrite Ht.
    now destruct (existsb (String.eqb name) (getTableList db)).
Qed.

Lemma count_above db name k :
  (0 <= k)%Z ->
  (k <? db_recordCount (getTableList db) name db)%Z = true <->
  exists rows, tables db !! name = Some rows /\ (k < Z.of_nat (length rows))%Z.
Proof.
  intros Hk. rewrite db_recordCount_is_table_length, Z.ltb_lt.
  destruct (tables db !! name) as [rows|].
  - split; [eauto|]. now intros (r & [= <-] & H).
  - split; [lia|]. intros (r & Hr & _). discriminate.
Qed.

(** The health check passes exactly when the table [cities] has more
    than 10000 rows and, when Wikidata is used, [City_wikidata] has more
    than 100000, [regions] more than 1000 and [countries] more than 100;
    a table the store does not have counts as empty. *)
Theorem db_has_data_iff self db :
  db_has_data self db = true <->
  (exists rows, tables db !! "cities" = Some rows /\
                (10000 < Z.of_nat (length rows))%Z) /\
  (useWikiData self = true ->
   (exists rows, tables db !! "City_wikidata" = Some rows /\
                 (100000 < Z.of_nat (length rows))%Z) /\
   (exists rows, tables db !! "regions" = Some rows /\
                 (1000 < Z.of_nat (length rows))%Z) /\
   (exists rows, tables db !! "countries" = Some rows /\
                 (100 < Z.of_nat (length rows))%Z)).
Proof.
  unfold db_has_data. destruct (useWikiData self).
  - rewrite !andb_true_iff, !count_above by lia. split.
    + intros [[[Hc Hw] Hr] Hco]. split; [exact Hc|]. intros _. auto.
    + intros [Hc H]. destruct (H eq_refl) as (Hw & Hr & Hco). auto.
  - rewrite count_above by lia. split.
    + intros Hc. split; [exact Hc|]. discriminate.
    + now intros [Hc _].
Qed.


(** *** What a population leaves in the store *)


Lemma wikidata_tables_base E self t rows :
  wikidata_tables E self (<["prefixes" := rows]> t) !! base_table self = None ->
  wikidata_tables E self t !! base_table self = None.
Proof.
  unfold wikidata_tables, base_table. destruct (useWikiData self).
  - rewrite !lookup_union_None, !lookup_insert_ne by discriminate. auto.
  - now rewrite lookup_insert_ne by discriminate.
Qed.










(** ** Derived tables and lookups after a population *)




Section LookupResults.

Variable E : Env.
Variable self : Locator.

Lemma places_by_name_inv placeName columnName db rows db' :
  places_by_name E self placeName columnName db = Ok (rows, db') ->
  exists all,
    query_view (getView self) db' = Ok (all, db') /\
    rows = List.filter
             (fun row => bool_decide (row !! columnName = Some (VStr placeName))) all /\
    (db_has_data self db = true -> db' = db).
Proof.
  unfold places_by_name. intros H.
  apply bind_Ok in H as (has & db1 & Hg & H). injection Hg as <- <-.
  apply bind_Ok in H as ([] & db2 & Hpop & H).
  apply bind_Ok in H as (all & db3 & Hq & H).
  pose proof (query_view_Ok _ _ _ _ Hq) as (-> & _).
  injection H as <- <-. exists all. split; [exact Hq|]. split; [reflexivity|].
  intros Hd. rewrite Hd in Hpop. now injection Hpop as <-.
Qed.


(** [cities_for_name] builds one city per row [places_by_name] finds in
    the column [name], in order, and every such city bears the name
    asked for. *)
Theorem cities_for_name_named cityName db cities db' :
  cities_for_name E self cityName db = Ok (cities, db') ->
  (exists rows,
      places_by_name E self cityName "name" db = Ok (rows, db') /\
      Forall2 (fun row city => City.fromGeoLite2 row = Ok city) rows cities) /\
  Forall (fun city => City.name city = VStr cityName) cities.
Proof.
  unfold cities_for_name. intros H.
  apply bind_Ok in H as (rows & db1 & Hp & H). apply lift_Ok in H as [Hm ->].
  apply mapR_Ok in Hm. split; [eauto|].
  apply places_by_name_inv in Hp as (all & _ & Hrows & _).
  assert (Hall : Forall (fun row => row !! "name" = Some (VStr cityName)) rows).
  { subst rows. apply Forall_forall. intros row Hin.
    apply list_elem_of_In, filter_In in Hin as [_ Hin].
    exact (bool_decide_eq_true_1 _ Hin). }
  clear Hrows. induction Hm as [|row city rows cities Hc _ IH]; [constructor|].
  inversion Hall as [|? ? Hrow Hall']; subst. constructor; [|now apply IH].
  apply City_fromGeoLite2_Ok in Hc as (Hn & _). congruence.
Qed.

(** [regions_for_name] searches the column [regionIsoCode] for an
    ISO-shaped name and the column [regionName] otherwise, and every
    region it returns holds the name in that attribute. *)
Theorem regions_for_name_keyed region_name db regions db' :
  regions_for_name E self region_name db = Ok (regions, db') ->
  (exists rows,
      places_by_name E self region_name
        (if isISO region_name then "regionIsoCode" else "regionName") db
      = Ok (rows, db') /\
      Forall2 (fun row region => Region.fromGeoLite2 row = Ok region) rows regions) /\
  Forall (fun region =>
            (if isISO region_name then Region.iso region else Region.name region)
            = VStr region_name) regions.
Proof.
  rewrite regions_for_name_route. intros H.
  apply bind_Ok in H as (rows & db1 & Hp & H). apply lift_Ok in H as [Hm ->].
  apply mapR_Ok in Hm. split; [eauto|].
  apply places_by_name_inv in Hp as (all & _ & Hrows & _).
  assert (Hall : Forall (fun row =>
                           row !! (if isISO region_name then "regionIsoCode"
                                   else "regionName") = Some (VStr region_name)) rows).
  { subst rows. apply Forall_forall. intros row Hin.
    apply list_elem_of_In, filter_In in Hin as [_ Hin].
    exact (bool_decide_eq_true_1 _ Hin). }
  clear Hrows. induction Hm as [|row region rows regions Hc _ IH]; [constructor|].
  inversion Hall as [|? ? Hrow Hall']; subst. constructor; [|now apply IH].
  rewrite Region_fromGeoLite2_cases in Hc.
  destruct (row !! "regionName") as [n|] eqn:Hn; [|discriminate].
  destruct (row !! "regionIsoCode") as [i|] eqn:Hi; [|discriminate].
  injection Hc as <-. cbn. destruct (isISO region_name); congruence.
Qed.

(** *** A populated store is only read *)

Lemma cities_for_name_reads cityName db cities db' :
  db_has_data self db = true ->
  cities_for_name E self cityName db = Ok (cities, db') -> db' = db.
Proof.
  unfold cities_for_name. intros Hd H.
  apply bind_Ok in H as (rows & db1 & Hp & H). apply lift_Ok in H as [_ ->].
  apply places_by_name_inv in Hp as (_ & _ & _ & Hsame). now apply Hsame.
Qed.

Lemma regions_for_name_reads region_name db regions db' :
  db_has_data self db = true ->
  regions_for_name E self region_name db = Ok (regions, db') -> db' = db.
Proof.
  rewrite regions_for_name_route. intros Hd H.
  apply bind_Ok in H as (rows & db1 & Hp & H). apply lift_Ok in H as [_ ->].
  apply places_by_name_inv in Hp as (_ & _ & _ & Hsame). now apply Hsame.
Qed.

Lemma locate_scan_reads places : forall st db st' its db',
  db_has_data self db = true ->
  locate_scan E self st places db = Ok ((st', its), db') -> db' = db.
Proof.
  induction places as [|place places IH]; intros st db st' its db' Hd H.
  - now apply locate_scan_nil in H as (_ & _ & ->).
  - apply locate_scan_cons in H as (st1 & it & db1 & its1 & Hstep & Hscan & ->).
    assert (db1 = db) as ->.
    { apply locate_step_Ok in Hstep as (_ & _ & _ & _ & _ & _ & _ & _ & _ & Hl).
      destruct (negb (Iter.isPrefix it) || Iter.isAmbigous it).
      - destruct Hl as (fc & fcs & frs & db2 & _ & Hcs & Hrs & _).
        apply cities_for_name_reads in Hcs; [subst db2|exact Hd].
        now apply regions_for_name_reads in Hrs.
      - now destruct Hl as (_ & -> & _). }
    eapply IH; eassumption.
Qed.

(** On a store that passes the health check [locate] only reads: it
    returns the store as it found it, without any bulk load. *)
Theorem locate_reads_populated_store places db r db' :
  db_has_data self db = true ->
  locate E self places db = Ok (r, db') ->
  db' = db.
Proof.
  intros Hd H. apply locate_Ok in H as (db1 & st & its & Hpop & Hscan & _).
  rewrite (populate_db_noop E self db Hd) in Hpop. injection Hpop as <-.
  eapply locate_scan_reads; eassumption.
Qed.

End LookupResults.


Lemma cities_for_name_named_witness :
  exists cities db',
    cities_for_name sample_env default_locator "Paris" sample_store = Ok (cities, db') /\
    Forall (fun city => City.name city = VStr "Paris") cities.
Proof.
  assert (Hs : succeeds (cities_for_name sample_env default_locator "Paris" sample_store)
               = true) by (vm_compute; reflexivity).
  destruct (cities_for_name sample_env default_locator "Paris" sample_store)
    as [[cities db']|e] eqn:Hrun; [|discriminate Hs].
  exists cities, db'. split; [reflexivity|].
  now apply (cities_for_name_named sample_env default_locator "Paris" sample_store
               cities db' Hrun).
Defined.

Lemma regions_for_name_keyed_witness :
  exists regions db',
    regions_for_name sample_env default_locator "TX" sample_store = Ok (regions, db') /\
    Forall (fun region => Region.iso region = VStr "TX") regions.
Proof.
  assert (Hs : succeeds (regions_for_name sample_env default_locator "TX" sample_store)
               = true) by (vm_compute; reflexivity).
  destruct (regions_for_name sample_env default_locator "TX" sample_store)
    as [[regions db']|e] eqn:Hrun; [|discriminate Hs].
  exists regions, db'. split; [reflexivity|].
  now apply (regions_for_name_keyed sample_env default_locator "TX" sample_store
               regions db' Hrun).
Defined.

Lemma locate_reads_populated_store_witness :
  exists r, locate bulk_env default_locator ["Paris"; "TX"] bulk_store = Ok (r, bulk_store).
Proof.
  assert (Hsrc : source_available bulk_env default_locator)
    by (intros Hw; discriminate Hw).
  assert (Hdict : correctMisspelling default_locator = true ->
                  dictionary_well_formed bulk_env) by (intros Hc; discriminate Hc).
  assert (Hready : store_ready default_locator bulk_store).
  { destruct (populate_db_forced_total bulk_env default_locator false empty_store Hsrc
                eq_refl) as (db1 & Hrun & Hready).
    unfold bulk_store. rewrite Hrun. exact Hready. }
  assert (Hdata : db_has_data default_locator bulk_store = true)
    by (vm_compute; reflexivity).
  destruct (locate_scan_total bulk_env default_locator Hsrc Hdict ["Paris"; "TX"]
              Scan.init bulk_store Hready) as (st & its & db' & Hscan & _).
  assert (Hrun : locate bulk_env default_locator ["Paris"; "TX"] bulk_store
                 = Ok (disambiguate (Scan.country st) (Scan.regions st) (Scan.cities st),
                       db')).
  { unfold locate.
    rewrite (bind_run _ _ _ _ _ (populate_db_noop bulk_env default_locator _ Hdata)).
    now rewrite (bind_run _ _ _ _ _ Hscan). }
  exists (disambiguate (Scan.country st) (Scan.regions st) (Scan.cities st)).
  rewrite Hrun. f_equal. f_equal.
  exact (locate_reads_populated_store bulk_env default_locator ["Paris"; "TX"]
           bulk_store _ db' Hdata Hrun).
Defined.

(** ** The scan as an accumulation *)

Section ScanResults.

Variable E : Env.
Variable self : Locator.






End ScanResults.



(** ** Multi-word names *)

Lemma locate_scan_prefix E self places : forall st db st' its db',
  locate_scan E self st places db = Ok ((st', its), db') ->
  (forall i it, its !! i = Some it ->
     Iter.prefix_before it = pending_prefix (Scan.prefix st) (take i its)) /\
  Scan.prefix st' = pending_prefix (Scan.prefix st) its.
Proof.
  induction places as [|place places IH]; intros st db st' its db' H.
  - apply locate_scan_nil in H as (-> & -> & _). split; [|reflexivity].
    intros i it Hi. now destruct i.
  - apply locate_scan_cons in H as (st1 & it & db1 & its1 & Hstep & Hscan & ->).
    apply locate_step_Ok in Hstep as (_ & Hpl & Hpb & _ & _ & _ & _ & _ & Hp & _).
    destruct (IH _ _ _ _ _ Hscan) as [IHi IHp].
    assert (Hnext : Scan.prefix st1 =
                    (if Iter.isPrefix it then Scan.prefix st +:+ Iter.place it +:+ " "
                     else "")) by (now rewrite Hpl).
    split.
    + intros [|i] it' Hi.
      * cbn in Hi. injection Hi as <-. exact Hpb.
      * cbn in Hi. rewrite (IHi _ _ Hi), Hnext. reflexivity.
    + rewrite IHp, Hnext. reflexivity.
Qed.

Lemma pending_prefix_app prefix its1 its2 :
  pending_prefix prefix (its1 ++ its2) = pending_prefix (pending_prefix prefix its1) its2.
Proof. apply fold_left_app. Qed.

Lemma append_assoc (a b c : string) : (a +:+ b) +:+ c = a +:+ (b +:+ c).
Proof. induction a as [|x a IH]; [reflexivity|]. now rewrite !append_cons, IH. Qed.

Lemma pending_prefix_run prefix run :
  Forall (fun it => Iter.isPrefix it = true) run ->
  pending_prefix prefix run =
  prefix +:+ fold_right (fun it s => Iter.place it +:+ " " +:+ s) "" run.
Proof.
  intros Hrun. revert prefix.
  induction Hrun as [|it run Hit _ IH]; intros prefix; cbn [pending_prefix fold_left fold_right].
  - now rewrite append_nil_r.
  - fold (pending_prefix (if Iter.isPrefix it then prefix +:+ Iter.place it +:+ " " else "") run).
    rewrite IH, Hit, !append_assoc. reflexivity.
Qed.

(** Multi-word names: after a token that was not a prefix (or at the
    start of the scan), a run of tokens that each extend a known prefix
    builds the candidate of the next token: the tokens of the run and
    that token, joined by single spaces. *)
Theorem candidate_joins_prefix_run E self places db st' its db' before run it after :
  locate_scan E self Scan.init places db = Ok ((st', its), db') ->
  its = (before ++ run ++ it :: after)%list ->
  (before = [] \/ exists before' last, before = (before' ++ [last])%list /\
                                       Iter.isPrefix last = false) ->
  Forall (fun r => Iter.isPrefix r = true) run ->
  Iter.prefix_before it +:+ Iter.place it
  = String.concat " " (map Iter.place (run ++ [it])%list).
Proof.
  intros Hscan Hits Hbefore Hrun.
  destruct (locate_scan_prefix _ _ _ _ _ _ _ _ Hscan) as [Hi _].
  specialize (Hi (length (before ++ run)) it).
  rewrite Hits, app_assoc in Hi.
  rewrite lookup_app_r, Nat.sub_diag in Hi by lia. specialize (Hi eq_refl).
  rewrite take_app_length in Hi. cbn [Scan.init Scan.prefix] in Hi.
  rewrite pending_prefix_app in Hi.
  assert (Hb : pending_prefix "" before = "").
  { destruct Hbefore as [->|(before' & last & -> & Hlast)]; [reflexivity|].
    rewrite pending_prefix_app. cbn. now rewrite Hlast. }
  rewrite Hb, (pending_prefix_run _ _ Hrun), append_nil_l in Hi. rewrite Hi.
  clear. induction run as [|r run IH]; cbn [fold_right app map String.concat].
  - reflexivity.
  - rewrite !append_assoc, IH.
    destruct (map Iter.place (run ++ [it])) eqn:Hm.
    + destruct run; discriminate.
    + reflexivity.
Qed.

Lemma candidate_joins_prefix_run_witness :
  exists it,
    snd (fst san_jose_tx) !! 1%nat = Some it /\
    Iter.prefix_before it +:+ Iter.place it = "San Jose".
Proof.
  assert (Hp : map Iter.isPrefix (snd (fst san_jose_tx)) = [true; false; false])
    by (vm_compute; reflexivity).
  assert (Hn : map Iter.place (snd (fst san_jose_tx)) = ["San"; "Jose"; "TX"])
    by (vm_compute; reflexivity).
  assert (Hscan : locate_scan sample_env default_locator Scan.init ["San"; "Jose"; "TX"]
                    sample_store
                  = Ok ((fst (fst san_jose_tx), snd (fst san_jose_tx)), snd san_jose_tx))
    by (apply scan_of_Ok; vm_compute; reflexivity).
  destruct (snd (fst san_jose_tx)) as [|a [|b [|c [|d its]]]] eqn:Hits;
    try discriminate Hp.
  injection Hp as Hpa _ _. injection Hn as Hna Hnb _.
  exists b. split; [reflexivity|].
  assert (Hrun : Forall (fun r => Iter.isPrefix r = true) [a])
    by (constructor; [exact Hpa | constructor]).
  rewrite (candidate_joins_prefix_run sample_env default_locator _ _ _ _ _
             [] [a] b [c] Hscan eq_refl (or_introl eq_refl) Hrun).
  cbn [app map String.concat]. now rewrite Hna, Hnb.
Defined.

(** ** The singleton *)

(** [getInstance] creates the instance on the first call and returns
    that same instance afterwards: the parameters of later calls have no
    effect, until [resetInstance]. *)
Theorem getInstance_keeps_first_parameters db_path locator c1 d1 c2 d2 :
  let first := getInstance db_path (resetInstance locator) c1 d1 in
  getInstance db_path (snd first) c2 d2 = first /\
  inst_correctMisspelling (fst first) = c1 /\
  inst_debug (fst first) = d1 /\
  inst_db_file (fst first) = db_path +:+ "/locs.db" /\
  fst (getInstance db_path (resetInstance (snd first)) c2 d2)
  = Locator_init db_path None c2 d2.
Proof. cbn. auto. Qed.

(** ** String representations *)

(** The representations the module's documentation lists. *)
Example City_str_documented :
  City_str paris_tx = "Paris (TX(Texas) - US(United States))" /\
  City_str vienna = "Vienna (9(Vienna) - AT(Austria))".
Proof. split; reflexivity. Qed.

(** ** A bulk file under the threshold *)

Section SmallFile.

Variable E : Env.
Variable self : Locator.
Hypothesis Hdefault : useWikiData self = false.
Hypothesis Hsmall : (Z.of_nat (length (GeoLite2_City_Locations E)) <= 10000)%Z.






End SmallFile.

